(** * pullmaster-ai: the pull-request aggregation pipeline

    A shallow embedding of [src/services/github.js] (class [GitHubService])
    and [src/commands/analyze.js] ([filterFiles], [prepareAIData],
    [generatePrompt], the two [analyze] handlers), followed by the
    properties of the aggregation core.

    Conventions of the embedding.
    - A JavaScript number that holds an integer count (additions,
      deletions, [maxFiles]) is a [Z]. The pull-request number reaches the
      code as the text of a command-line argument and is passed on as it
      is, so it is a [string].
    - A JavaScript string is a [string]; [null]/[undefined] is [None].
    - A [throw] is the [Err] branch of [result]; an [async] function
      returns a [promise], the list of the ways it may settle. *)

From stdpp Require Import base list strings pretty.
From Stdlib Require Import ZArith Ascii.
From stdpp Require Import gmap.
From Stdlib Require Import QArith.

Local Open Scope Z_scope.

(** ** Thrown values *)

(** The values the code can reject with: [new Error(message)], the
    [SyntaxError] of [new RegExp] on a malformed pattern, the [TypeError]
    of [Buffer.from] on a value that is no string, and the provider
    client's request error, of which the code reads [status].
    [ContentFetchFailed] is the wrapper named by the specification's error
    taxonomy; it is part of the type so that statements can mention it, and
    no function below builds it. *)
Inductive exn : Type :=
  | Error (message : string)
  | SyntaxError (message : string)
  | TypeError (message : string)
  | RequestError (status : Z)
  | ContentFetchFailed (filename : string) (cause : exn).

Inductive result (A : Type) : Type :=
  | Ok (value : A)
  | Err (reason : exn).
Arguments Ok {A} value.
Arguments Err {A} reason.

Definition is_ok {A} (r : result A) : bool :=
  match r with Ok _ => true | Err _ => false end.

Definition error_of {A} (r : result A) : option exn :=
  match r with Ok _ => None | Err e => Some e end.

#[export] Instance result_ret : MRet result := fun _ v => Ok v.
#[export] Instance result_bind : MBind result := fun _ _ k r =>
  match r with Ok v => k v | Err e => Err e end.
#[export] Instance result_fmap : FMap result := fun _ _ f r =>
  match r with Ok v => Ok (f v) | Err e => Err e end.

(** ** Strings *)

(** [String.prototype.split] with a one-character separator. *)
Fixpoint split (sep : ascii) (s : string) : list string :=
  match s with
  | "" => [""]
  | String c rest =>
      if Ascii.eqb c sep then "" :: split sep rest
      else match split sep rest with
           | piece :: pieces => String c piece :: pieces
           | [] => [String c ""]
           end
  end.

Fixpoint contains_char (c : ascii) (s : string) : bool :=
  match s with
  | "" => false
  | String d rest => Ascii.eqb d c || contains_char c rest
  end.

Definition slash : ascii := "/"%char.

(** JavaScript truthiness of a string that may be [undefined]. *)
Definition truthy_string (s : option string) : bool :=
  match s with
  | None | Some "" => false
  | Some _ => true
  end.

(** ** GitHubService.parseRepoString *)

Record RepoRef := { owner : string; repo : string }.

Definition InvalidReference : exn :=
  Error "Invalid repository format. Use: owner/repo".

(** [const [owner, repo] = repoString.split('/')]: the first two pieces,
    the second [undefined] when there is no separator; further pieces are
    dropped. *)
Definition parseRepoString (repoString : string) : result RepoRef :=
  let pieces := split slash repoString in
  let owner := pieces !! 0%nat in
  let repo := pieces !! 1%nat in
  if negb (truthy_string owner) || negb (truthy_string repo)
  then Err InvalidReference
  else Ok {| owner := default "" owner; repo := default "" repo |}.

(** ** Provider data *)

Record User := { login : string }.
Record GitRef := { ref : string; sha : string }.

(** The fields of the provider's pull-request object that the code reads;
    [body] is [null] for a pull request without description. *)
Record PullRequest := {
  title : string;
  body : option string;
  user : User;
  base : GitRef;
  head : GitRef;
}.

(** An entry of the changed-file list; [patch] is absent for binary files. *)
Record ChangedFile := {
  filename : string;
  status : string;
  additions : Z;
  deletions : Z;
  patch : option string;
}.

(** [{...file, baseContent, headContent}]: a content is [null] when the
    file does not exist at that reference. *)
Record FileChange := {
  file :> ChangedFile;
  baseContent : option string;
  headContent : option string;
}.

Record CommitAuthor := { name : string; date : string }.
Record CommitDetail := { message : string; author : CommitAuthor }.
Record Commit := { commit : CommitDetail }.

Record Review := { reviewer : User; state : string }.

(** The [metadata] object built by [analyzePR]. *)
Record Metadata := {
  totalCommits : Z;
  totalFiles : Z;
  totalAdditions : Z;
  totalDeletions : Z;
  totalReviews : Z;
}.

(** The object returned by [analyzePR]. *)
Record PRData := {
  pullRequest : PullRequest;
  files : list FileChange;
  commits : list Commit;
  reviews : list Review;
  metadata : Metadata;
}.

(** ** The provider client

    The five endpoints of the REST client that [GitHubService] calls, each
    taking [owner], [repo] and its own arguments and answering with the
    [data] of the response or with the error the client throws. A value of
    this record fixes what the provider answers to every request of one
    run. [Buffer_decode] stands for
    [Buffer.from(content, 'base64').toString('utf8')] on a string.
    [repos_getContent] gives the [content] of the response's [data], the
    string handed to [Buffer.from], or the error thrown before there is a
    text to decode: the client's request error, or the [TypeError] of
    [Buffer.from] for a response that carries no [content] (a directory, a
    submodule). Both are thrown inside the [try] of [getFileContent] and
    meet the same [catch]. *)
Record Octokit := {
  pulls_get : string → string → string → result PullRequest;
  pulls_listFiles : string → string → string → result (list ChangedFile);
  pulls_listCommits : string → string → string → result (list Commit);
  pulls_listReviews : string → string → string → result (list Review);
  repos_getContent : string → string → string → string → result string;
  Buffer_decode : string → string;
}.

(** [error.status]: defined only on the client's request errors. *)
Definition error_status (error : exn) : option Z :=
  match error with
  | RequestError status => Some status
  | _ => None
  end.

(** ** Promises

    An [async] call is modelled by the list of the ways it may settle. A
    single request settles in one way, fixed by the client. [Promise.all]
    fulfils with every value, in positional order, when every input
    fulfils; otherwise it rejects with the reason of the input that
    rejected first in time. Which one that is depends on the event loop
    and not on the source, so every rejection of an input is a possible
    rejection of the whole. *)
Definition promise (A : Type) : Type := list (result A).

Definition settled {A} (r : result A) : promise A := [r].

Definition fulfilments {A} (p : promise A) : list A :=
  omap (λ r, match r with Ok v => Some v | Err _ => None end) p.

Definition rejections {A} (p : promise A) : list exn := omap error_of p.

(** [const x = await p; k x] inside an [async] function. *)
Definition await {A B} (p : promise A) (k : A → promise B) : promise B :=
  mbind (M := list)
    (λ r, match r with Ok v => k v | Err e => [Err e] end) p.

Fixpoint all_values {A} (ps : list (promise A)) : list (list A) :=
  match ps with
  | [] => [[]]
  | p :: rest => v ← fulfilments p; vs ← all_values rest; [v :: vs]
  end.

(** [Promise.all(ps)] over an array. *)
Definition Promise_all {A} (ps : list (promise A)) : promise (list A) :=
  (Ok <$> all_values ps) ++ (Err <$> (ps ≫= rejections)).

(** [Promise.all([a, b])], destructured as a pair. *)
Definition Promise_all2 {A B} (pa : promise A) (pb : promise B)
  : promise (A * B) :=
  (a ← fulfilments pa; b ← fulfilments pb; [Ok (a, b)] : list _)
  ++ (Err <$> (rejections pa ++ rejections pb)).

(** [Promise.all([a, b, c, d])], destructured as a quadruple. *)
Definition Promise_all4 {A B C D}
    (pa : promise A) (pb : promise B) (pc : promise C) (pd : promise D)
  : promise (A * B * C * D) :=
  (a ← fulfilments pa; b ← fulfilments pb;
   c ← fulfilments pc; d ← fulfilments pd; [Ok (a, b, c, d)])
  ++ (Err <$> (rejections pa ++ rejections pb ++ rejections pc ++ rejections pd)).

(** ** GitHubService *)

(** The shape shared by the four list/metadata getters: parse the
    repository string (a [throw] there rejects the returned promise), then
    await the endpoint and return its [data]. *)
Definition getPullRequest (octokit : Octokit) (repoString : string)
    (prNumber : string) : promise PullRequest :=
  match parseRepoString repoString with
  | Err e => settled (Err e)
  | Ok r => await (settled (pulls_get octokit (owner r) (repo r) prNumber))
                  (λ pr, settled (Ok pr))
  end.

Definition getPullRequestFiles (octokit : Octokit) (repoString : string)
    (prNumber : string) : promise (list ChangedFile) :=
  match parseRepoString repoString with
  | Err e => settled (Err e)
  | Ok r => await (settled (pulls_listFiles octokit (owner r) (repo r) prNumber))
                  (λ files, settled (Ok files))
  end.

Definition getPullRequestCommits (octokit : Octokit) (repoString : string)
    (prNumber : string) : promise (list Commit) :=
  match parseRepoString repoString with
  | Err e => settled (Err e)
  | Ok r => await (settled (pulls_listCommits octokit (owner r) (repo r) prNumber))
                  (λ commits, settled (Ok commits))
  end.

Definition getPullRequestReviews (octokit : Octokit) (repoString : string)
    (prNumber : string) : promise (list Review) :=
  match parseRepoString repoString with
  | Err e => settled (Err e)
  | Ok r => await (settled (pulls_listReviews octokit (owner r) (repo r) prNumber))
                  (λ reviews, settled (Ok reviews))
  end.

(** [getFileContent]: the repository string is parsed outside the [try];
    inside it, the content of a response is decoded, an error of status
    404 becomes [null], and any other error, with another status or with
    none, is thrown again. *)
Definition getFileContent (octokit : Octokit) (repoString path ref : string)
  : promise (option string) :=
  match parseRepoString repoString with
  | Err e => settled (Err e)
  | Ok r =>
      match repos_getContent octokit (owner r) (repo r) path ref with
      | Ok content => settled (Ok (Some (Buffer_decode octokit content)))
      | Err error =>
          if bool_decide (error_status error = Some 404)
          then settled (Ok None)
          else settled (Err error)
      end
  end.

(** The sum of a list of integers. *)
Definition total (xs : list Z) : Z := foldr Z.add 0 xs.

(** [files.reduce((sum, file) => sum + file.additions, 0)]. *)
Definition sum_additions (files : list ChangedFile) : Z :=
  foldl (λ sum file, sum + additions file) 0 files.

Definition sum_deletions (files : list ChangedFile) : Z :=
  foldl (λ sum file, sum + deletions file) 0 files.

(** The callback of [files.map] in [analyzePR]. *)
Definition fetchContents (octokit : Octokit) (repoString : string)
    (pr : PullRequest) (file : ChangedFile) : promise FileChange :=
  await (Promise_all2
           (getFileContent octokit repoString (filename file) (sha (base pr)))
           (getFileContent octokit repoString (filename file) (sha (head pr))))
        (λ '(baseContent, headContent),
           settled (Ok {| file := file;
                          baseContent := baseContent;
                          headContent := headContent |})).

Definition analyzePR (octokit : Octokit) (repoString : string) (prNumber : string)
  : promise PRData :=
  await (Promise_all4 (getPullRequest octokit repoString prNumber)
                      (getPullRequestFiles octokit repoString prNumber)
                      (getPullRequestCommits octokit repoString prNumber)
                      (getPullRequestReviews octokit repoString prNumber))
    (λ '(pr, files, commits, reviews),
       await (Promise_all (fetchContents octokit repoString pr <$> files))
         (λ fileContents,
            settled (Ok {|
              pullRequest := pr;
              files := fileContents;
              commits := commits;
              reviews := reviews;
              metadata := {|
                totalCommits := Z.of_nat (length commits);
                totalFiles := Z.of_nat (length files);
                totalAdditions := sum_additions files;
                totalDeletions := sum_deletions files;
                totalReviews := Z.of_nat (length reviews) |} |}))).

(** The record that [analyzePR] returns, as a function of what was
    fetched. *)
Definition assembled (pr : PullRequest) (fs : list ChangedFile)
    (cs : list Commit) (rv : list Review) (fcs : list FileChange) : PRData :=
  {| pullRequest := pr;
     files := fcs;
     commits := cs;
     reviews := rv;
     metadata := {|
       totalCommits := Z.of_nat (length cs);
       totalFiles := Z.of_nat (length fs);
       totalAdditions := sum_additions fs;
       totalDeletions := sum_deletions fs;
       totalReviews := Z.of_nat (length rv) |} |}.

(** ** Configuration

    The parsed [.pullmasterrc]; every key may be missing. *)
Record GitHubConfig := { token : option string }.

Record AnalysisConfig := {
  maxFiles : option Z;
  excludePaths : option (list string);
  aiModel : option string;
}.

Record Config := {
  github : option GitHubConfig;
  analysis : option AnalysisConfig;
}.

(** ** Regular expressions

    [new RegExp(p)] and [RegExp.prototype.test] belong to the language
    runtime. The code uses them through this interface: compiling a
    pattern may throw, testing a compiled pattern (built without the
    global or sticky flag, so without state) against a string answers a
    boolean. *)
Class RegExpEngine := {
  RegExp : Type;
  RegExp_new : string → result RegExp;
  RegExp_test : RegExp → string → bool;
}.

(** [xs.map(f)] where [f] may throw: the first throw, in order, ends the
    loop. *)
Fixpoint map_throwing {A B} (f : A → result B) (xs : list A)
  : result (list B) :=
  match xs with
  | [] => Ok []
  | x :: rest =>
      match f x with
      | Err e => Err e
      | Ok y => match map_throwing f rest with
                | Err e => Err e
                | Ok ys => Ok (y :: ys)
                end
      end
  end.

(** [xs.slice(0, end)] for an integer [end]: a negative [end] counts from
    the back of the array. *)
Definition slice0 {A} (xs : list A) (end_ : Z) : list A :=
  let len := Z.of_nat (length xs) in
  let final := if end_ <? 0 then Z.max (len + end_) 0 else Z.min end_ len in
  take (Z.to_nat final) xs.

(** ** filterFiles *)

(** [config.analysis?.maxFiles], as the condition of an [if]: a number is
    truthy unless it is zero. *)
Definition configured_maxFiles (config : Config) : option Z :=
  analysis config ≫= maxFiles.

Definition configured_excludePaths (config : Config) : option (list string) :=
  analysis config ≫= excludePaths.

(** The test of the [filter] callback:
    [!patterns.some((pattern) => pattern.test(file.filename))]. *)
Definition kept `{E : RegExpEngine} (patterns : list RegExp) (file : FileChange)
  : bool :=
  negb (existsb (λ pattern, RegExp_test pattern (filename file)) patterns).

Definition filterFiles `{E : RegExpEngine} (files : list FileChange)
    (config : Config) : result (list FileChange) :=
  let filteredFiles := files in
  let filteredFiles :=
    match configured_maxFiles config with
    | Some n => if n =? 0 then filteredFiles else slice0 filteredFiles n
    | None => filteredFiles
    end in
  match configured_excludePaths config with
  | Some (p :: ps) =>
      patterns ← map_throwing RegExp_new (p :: ps);
      Ok (List.filter (kept patterns) filteredFiles)
  | _ => Ok filteredFiles
  end.

(** The filter in the specification's words: first keep the first
    [maxFiles] files, all of them when no limit is set, then drop every
    file whose name matches one of the exclusion patterns. *)
Definition truncate (limit : option Z) (files : list FileChange)
  : list FileChange :=
  match limit with
  | None => files
  | Some n => take (Z.to_nat n) files
  end.

Definition exclude `{E : RegExpEngine} (patterns : list RegExp)
    (files : list FileChange) : list FileChange :=
  List.filter
    (λ f : FileChange,
       negb (existsb (λ pattern, RegExp_test pattern (filename f)) patterns))
    files.

(** ** prepareAIData *)

Record AIPullRequest := {
  ai_title : string;
  description : option string;
  ai_author : string;
  baseBranch : string;
  headBranch : string;
}.

Record AIChange := {
  change_filename : string;
  change_status : string;
  change_additions : Z;
  change_deletions : Z;
  previousContent : option string;
  newContent : option string;
}.

Record AICommit := {
  commit_message : string;
  commit_author : string;
  commit_date : string;
}.

(** [{...prData.metadata, changedFiles, reviewers}]. *)
Record AIMetadata := {
  counts :> Metadata;
  changedFiles : list string;
  reviewers : list string;
}.

Record AIData := {
  ai_pullRequest : AIPullRequest;
  changes : list AIChange;
  ai_commits : list AICommit;
  ai_metadata : AIMetadata;
}.

(** [Set.prototype.add]: a set keeps insertion order and ignores a value
    it already holds. *)
Definition Set_add (s : list string) (x : string) : list string :=
  if bool_decide (x ∈ s) then s else s ++ [x].

(** [[...new Set(xs)]]. *)
Definition Set_of (xs : list string) : list string := foldl Set_add [] xs.

Definition prepareAIData (prData : PRData) : AIData := {|
  ai_pullRequest := {|
    ai_title := title (pullRequest prData);
    description := body (pullRequest prData);
    ai_author := login (user (pullRequest prData));
    baseBranch := ref (base (pullRequest prData));
    headBranch := ref (head (pullRequest prData)) |};
  changes := (λ file : FileChange, {|
    change_filename := filename file;
    change_status := status file;
    change_additions := additions file;
    change_deletions := deletions file;
    previousContent := baseContent file;
    newContent := headContent file |}) <$> files prData;
  ai_commits := (λ c, {|
    commit_message := message (commit c);
    commit_author := name (author (commit c));
    commit_date := date (author (commit c)) |}) <$> commits prData;
  ai_metadata := {|
    counts := metadata prData;
    changedFiles := (λ f : FileChange, filename f) <$> files prData;
    reviewers := Set_of ((λ r, login (reviewer r)) <$> reviews prData) |};
|}.

(** [prData.files = value]. *)
Definition set_files (prData : PRData) (value : list FileChange) : PRData := {|
  pullRequest := pullRequest prData;
  files := value;
  commits := commits prData;
  reviews := reviews prData;
  metadata := metadata prData;
|}.

(** ** A regular-expression engine for a fragment of the pattern language

    Enough of the runtime's engine to run the code on concrete patterns:
    literal characters, [.], a backslash before a punctuation character,
    the postfix operators [*], [+] and [?] on a single character, [^] as
    the first and [$] as the last character of the pattern. [test]
    searches for a match anywhere in the subject, as the runtime does. A
    pattern outside the fragment is refused with a [SyntaxError], although
    the runtime accepts many of them; nothing below applies this engine to
    such a pattern. Subjects are taken to be ASCII. *)
Module Fragment.

Inductive re : Type :=
  | Void
  | Empty
  | Char (c : ascii)
  | Dot
  | AnyChar
  | Seq (r1 r2 : re)
  | Alt (r1 r2 : re)
  | Star (r : re).

Fixpoint nullable (r : re) : bool :=
  match r with
  | Void | Char _ | Dot | AnyChar => false
  | Empty | Star _ => true
  | Seq r1 r2 => nullable r1 && nullable r2
  | Alt r1 r2 => nullable r1 || nullable r2
  end.

(** [.] matches every character but a line terminator. *)
Definition line_terminator (c : ascii) : bool :=
  Ascii.eqb c "010"%char || Ascii.eqb c "013"%char.

(** The derivative of [r] by the character [c]. *)
Fixpoint deriv (c : ascii) (r : re) : re :=
  match r with
  | Void | Empty => Void
  | Char d => if Ascii.eqb c d then Empty else Void
  | Dot => if line_terminator c then Void else Empty
  | AnyChar => Empty
  | Seq r1 r2 =>
      if nullable r1
      then Alt (Seq (deriv c r1) r2) (deriv c r2)
      else Seq (deriv c r1) r2
  | Alt r1 r2 => Alt (deriv c r1) (deriv c r2)
  | Star r1 => Seq (deriv c r1) (Star r1)
  end.

Fixpoint matches (r : re) (s : string) : bool :=
  match s with
  | "" => nullable r
  | String c rest => matches (deriv c r) rest
  end.

Definition operator (c : ascii) : bool :=
  bool_decide (c ∈ ["*"; "+"; "?"]%char).

Definition unsupported (c : ascii) : bool :=
  bool_decide (c ∈ ["("; ")"; "["; "]"; "{"; "}"; "|"; "^"; "$"]%char).

Definition alphanumeric (c : ascii) : bool :=
  let n := nat_of_ascii c in
  bool_decide (48 ≤ n ≤ 57 ∨ 65 ≤ n ≤ 90 ∨ 97 ≤ n ≤ 122 ∨ n = 95 ∨ 128 ≤ n)%nat.

Definition apply_operator (c : ascii) (r : re) : re :=
  if Ascii.eqb c "*" then Star r
  else if Ascii.eqb c "+" then Seq r (Star r)
  else Alt Empty r.

(** The body of a pattern, read left to right. [acc] holds the pieces
    read so far, last first, each with a flag telling whether an
    operator was already applied to it. The result also tells whether
    the pattern ended with [$]. *)
Fixpoint parse_body (s : string) (escaped : bool) (acc : list (re * bool))
  : option (list (re * bool) * bool) :=
  match s with
  | "" => if escaped then None else Some (acc, false)
  | String c rest =>
      if escaped then
        if alphanumeric c then None
        else parse_body rest false ((Char c, false) :: acc)
      else if Ascii.eqb c "\" then parse_body rest true acc
      else if Ascii.eqb c "." then parse_body rest false ((Dot, false) :: acc)
      else if operator c then
        match acc with
        | (r, false) :: acc' =>
            parse_body rest false ((apply_operator c r, true) :: acc')
        | _ => None
        end
      else if Ascii.eqb c "$" then
        match rest with "" => Some (acc, true) | _ => None end
      else if unsupported c then None
      else parse_body rest false ((Char c, false) :: acc)
  end.

Definition sequence (pieces : list (re * bool)) : re :=
  foldl (λ r piece, Seq piece.1 r) Empty pieces.

Definition compile (pattern : string) : result re :=
  let (anchored, rest) :=
    match pattern with
    | String "^" rest => (true, rest)
    | _ => (false, pattern)
    end in
  match parse_body rest false [] with
  | None => Err (SyntaxError pattern)
  | Some (pieces, at_end) =>
      Ok (Seq (if anchored then Empty else Star AnyChar)
              (Seq (sequence pieces)
                   (if at_end then Empty else Star AnyChar)))
  end.

#[export] Instance engine : RegExpEngine := {|
  RegExp := re;
  RegExp_new := compile;
  RegExp_test := matches;
|}.

End Fragment.

(** ** Text *)

Definition nl : string := String "010" "".

(** [xs.join(sep)]. *)
Definition join (sep : string) (xs : list string) : string :=
  String.concat sep xs.

(** [`${n}`] for an integer. *)
Definition show (n : Z) : string := pretty n.

(** [s || fallback] for a string that may be missing. *)
Definition or_else (s : option string) (fallback : string) : string :=
  if truthy_string s then default fallback s else fallback.

Fixpoint replace_chars (targets : list ascii) (by_ : ascii) (s : string)
  : string :=
  match s with
  | "" => ""
  | String c rest =>
      String (if bool_decide (c ∈ targets) then by_ else c)
             (replace_chars targets by_ rest)
  end.

(** [new Date().toISOString().replace(/[:.]/g, "-")]. *)
Definition timestamp_of (iso : string) : string :=
  replace_chars [":"; "."]%char "-"%char iso.

(** ** generatePrompt *)

Definition fileChange_text (file : FileChange) : string :=
  nl +:+ "File: " +:+ filename file +:+ nl
  +:+ "Status: " +:+ status file +:+ nl
  +:+ "Changes: +" +:+ show (additions file)
  +:+ " -" +:+ show (deletions file) +:+ nl
  +:+ "Diff:" +:+ nl
  +:+ "```" +:+ nl
  +:+ or_else (patch file) "Binary file changed" +:+ nl
  +:+ "```" +:+ nl.

Definition generatePrompt (prData : PRData) : string :=
  let fileChanges := join nl (fileChange_text <$> files prData) in
  "Please analyze this Pull Request and provide feedback on:" +:+ nl
  +:+ "- Code quality issues" +:+ nl
  +:+ "- Potential bugs or errors" +:+ nl
  +:+ "- Security concerns" +:+ nl
  +:+ "- Best practices recommendations" +:+ nl
  +:+ "- Suggested improvements" +:+ nl
  +:+ nl
  +:+ "Pull Request Details:" +:+ nl
  +:+ "Title: " +:+ title (pullRequest prData) +:+ nl
  +:+ "Description: "
  +:+ or_else (body (pullRequest prData)) "No description provided" +:+ nl
  +:+ "Author: " +:+ login (user (pullRequest prData)) +:+ nl
  +:+ "Base Branch: " +:+ ref (base (pullRequest prData)) +:+ nl
  +:+ "Head Branch: " +:+ ref (head (pullRequest prData)) +:+ nl
  +:+ nl
  +:+ "Changes Overview:" +:+ nl
  +:+ "- Total Files Changed: " +:+ show (totalFiles (metadata prData)) +:+ nl
  +:+ "- Total Commits: " +:+ show (totalCommits (metadata prData)) +:+ nl
  +:+ "- Total Additions: " +:+ show (totalAdditions (metadata prData)) +:+ nl
  +:+ "- Total Deletions: " +:+ show (totalDeletions (metadata prData)) +:+ nl
  +:+ nl
  +:+ "Commits:" +:+ nl
  +:+ join nl ((λ c, "- " +:+ message (commit c)) <$> commits prData) +:+ nl
  +:+ nl
  +:+ "File Changes:" +:+ nl
  +:+ fileChanges +:+ nl.

(** ** generateMarkdownReport *)

(** The findings object of the analysis step. *)
Record Analysis := {
  summary : string;
  security : list string;
  quality : list string;
  bugs : list string;
  recommendations : list string;
}.

(** [{...aiData, analysis: aiAnalysis}]. *)
Record Results := {
  data :> AIData;
  findings : Analysis;
}.

Definition bullets (mark : string) (items : list string) : string :=
  join nl ((λ item, "- " +:+ mark +:+ item) <$> items).

Definition generateMarkdownReport (results : Results) : string :=
  "# Pull Request Analysis Report" +:+ nl
  +:+ nl
  +:+ "## Overview" +:+ nl
  +:+ "- Title: " +:+ ai_title (ai_pullRequest results) +:+ nl
  +:+ "- Author: " +:+ ai_author (ai_pullRequest results) +:+ nl
  +:+ "- Base Branch: " +:+ baseBranch (ai_pullRequest results) +:+ nl
  +:+ "- Head Branch: " +:+ headBranch (ai_pullRequest results) +:+ nl
  +:+ nl
  +:+ "## Statistics" +:+ nl
  +:+ "- Files Changed: " +:+ show (totalFiles (ai_metadata results)) +:+ nl
  +:+ "- Total Commits: " +:+ show (totalCommits (ai_metadata results)) +:+ nl
  +:+ "- Additions: " +:+ show (totalAdditions (ai_metadata results)) +:+ nl
  +:+ "- Deletions: " +:+ show (totalDeletions (ai_metadata results)) +:+ nl
  +:+ nl
  +:+ "## Analysis Results" +:+ nl
  +:+ summary (findings results) +:+ nl
  +:+ nl
  +:+ "### Security Issues" +:+ nl
  +:+ bullets "🔒 " (security (findings results)) +:+ nl
  +:+ nl
  +:+ "### Code Quality" +:+ nl
  +:+ bullets "💡 " (quality (findings results)) +:+ nl
  +:+ nl
  +:+ "### Potential Bugs" +:+ nl
  +:+ bullets "🐛 " (bugs (findings results)) +:+ nl
  +:+ nl
  +:+ "### Recommendations" +:+ nl
  +:+ bullets "✨ " (recommendations (findings results)) +:+ nl
  +:+ nl
  +:+ "## Changed Files" +:+ nl
  +:+ bullets "" (changedFiles (ai_metadata results)) +:+ nl
  +:+ nl
  +:+ "## Reviewers" +:+ nl
  +:+ bullets "@" (reviewers (ai_metadata results)) +:+ nl.

(** ** Effects of a command handler *)

(** What is handed to [fs.writeFile]. [JSON.stringify] is not modelled:
    a serialised value is identified with the value. *)
Inductive document : Type :=
  | Text (content : string)
  | JSON_PRData (value : PRData)
  | JSON_Results (value : Results).

(** [ConsoleError label error] is [console.error(label, error.message)]. *)
Inductive effect : Type :=
  | ConsoleLog (text : string)
  | ConsoleError (label : string) (error : exn)
  | Mkdir (path : string)
  | WriteFile (path : string) (content : document)
  | ProcessExit (code : Z).

(** What a handler finds around it: the configuration loader of
    [src/utils/config.js], the client built for a token, the clock, the
    working directory, [path.join] and the file system. *)
Record Runtime := {
  loadConfig : option string → result Config;
  Octokit_new : string → Octokit;
  Date_toISOString : string;
  process_cwd : string;
  path_join : string → string → string;
  fs_mkdir : string → result unit;
  fs_writeFile : string → document → result unit;
}.

(** The options object of the [analyze] command (the [--max-files] and
    [--exclude] options are declared by the command line and read by no
    handler). *)
Record Options := {
  opt_config : option string;
  opt_output : option string;
}.

(** A handler run: the effects performed, in order, and how the run ended.
    A handler that awaits [analyzePR] has one run for each way it may
    settle. *)
Definition run (A : Type) : Type := list (list effect * result A).

Definition pure {A} (v : A) : run A := [([], Ok v)].

Definition throw {A} (e : exn) : run A := [([], Err e)].

Definition andThen {A B} (m : run A) (k : A → run B) : run B :=
  mbind (M := list)
    (λ '(seen, r),
       match r with
       | Err e => [(seen, Err e)]
       | Ok v => (λ '(later, r'), (seen ++ later, r')) <$> k v
       end) m.

Notation "x ←' m ; k" := (andThen m (λ x, k))
  (at level 20, m at level 100, k at level 200, only parsing).
Notation "m ;' k" := (andThen m (λ _, k))
  (at level 100, k at level 200, right associativity, only parsing).

Definition perform (e : effect) : run unit := [([e], Ok ())].

Definition lift {A} (r : result A) : run A := [([], r)].

(** [await p] inside a handler. *)
Definition awaiting {A} (p : promise A) : run A :=
  fmap (M := list) (λ r, ([], r)) p.

(** [try { body } catch (error) { handler }]. *)
Definition try_catch {A} (body : run A) (handler : exn → run A) : run A :=
  mbind (M := list)
    (λ '(seen, r),
       match r with
       | Ok v => [(seen, Ok v)]
       | Err e => (λ '(later, r'), (seen ++ later, r')) <$> handler e
       end) body.

Definition mkdir (rt : Runtime) (path : string) : run unit :=
  perform (Mkdir path);' lift (fs_mkdir rt path).

Definition writeFile (rt : Runtime) (path : string) (content : document)
  : run unit :=
  perform (WriteFile path content);' lift (fs_writeFile rt path content).

(** The documents that a run hands to [fs.writeFile], in order. *)
Definition written (trace : list effect) : list document :=
  omap (λ e, match e with WriteFile _ doc => Some doc | _ => None end) trace.

(** An effect other than reporting an error and ending the process. *)
Definition ordinary (e : effect) : bool :=
  match e with
  | ConsoleError _ _ | ProcessExit _ => false
  | _ => true
  end.

(** A computation all of whose runs perform ordinary effects only. *)
Definition ordinary_run {A} (m : run A) : Prop :=
  ∀ t r, (t, r) ∈ m → Forall (λ e, ordinary e = true) t.

(** ** GitHubService.initialize *)

Definition initialize (rt : Runtime) : result Octokit :=
  config ← loadConfig rt None;
  let token := github config ≫= token in
  if truthy_string token
  then Ok (Octokit_new rt (default "" token))
  else Err (Error "GitHub token not configured. Run: pullmaster configure --github-token <token>").

(** ** The two analyze handlers *)

(** The [catch] clause shared by both. *)
Definition report_failure (error : exn) : run unit :=
  perform (ConsoleError "Error analyzing pull request:" error);'
  perform (ProcessExit 1).

Definition pendingAnalysis : Analysis := {|
  summary := "AI analysis pending implementation";
  security := [];
  quality := [];
  bugs := [];
  recommendations := [];
|}.

(** [saveResults]. *)
Definition saveResults (rt : Runtime) (results : Results)
    (outputPath : option string) : run (string * string) :=
  let timestamp := timestamp_of (Date_toISOString rt) in
  let outputDir :=
    or_else outputPath (path_join rt (process_cwd rt) "pullmaster-results") in
  mkdir rt outputDir;'
  let jsonPath := path_join rt outputDir ("analysis-" +:+ timestamp +:+ ".json") in
  writeFile rt jsonPath (JSON_Results results);'
  let mdPath := path_join rt outputDir ("analysis-" +:+ timestamp +:+ ".md") in
  let markdownReport := generateMarkdownReport results in
  writeFile rt mdPath (Text markdownReport);'
  pure (jsonPath, mdPath).

(** The first declaration of [analyze] (the report variant). *)
Definition analyze_report `{E : RegExpEngine} (rt : Runtime)
    (provider repoString prNumber : string) (options : Options) : run unit :=
  try_catch
    (perform (ConsoleLog "Starting pull request analysis...");'
     config ←' lift (loadConfig rt (opt_config options));
     github ←' lift (initialize rt);
     perform (ConsoleLog "Fetching PR data...");'
     prData ←' awaiting (analyzePR github repoString prNumber);
     filtered ←' lift (filterFiles (files prData) config);
     let prData := set_files prData filtered in
     let aiData := prepareAIData prData in
     let results := {| data := aiData; findings := pendingAnalysis |} in
     paths ←' saveResults rt results (opt_output options);
     perform (ConsoleLog (nl +:+ "Analysis completed successfully!"));'
     perform (ConsoleLog ("Results saved to:" +:+ nl +:+ "- JSON: " +:+ paths.1
                          +:+ nl +:+ "- Markdown: " +:+ paths.2)))
    report_failure.

(** The second declaration of [analyze] (the prompt variant). *)
Definition analyze_prompt (rt : Runtime)
    (provider repoString prNumber : string) (options : Options) : run unit :=
  try_catch
    (perform (ConsoleLog "Starting pull request analysis...");'
     github ←' lift (initialize rt);
     perform (ConsoleLog "Fetching PR data...");'
     prData ←' awaiting (analyzePR github repoString prNumber);
     let prompt := generatePrompt prData in
     let timestamp := timestamp_of (Date_toISOString rt) in
     let outputDir := or_else (opt_output options) (process_cwd rt) in
     let promptPath :=
       path_join rt outputDir
         ("pr-" +:+ prNumber +:+ "-prompt-" +:+ timestamp +:+ ".txt") in
     mkdir rt outputDir;'
     writeFile rt promptPath (Text prompt);'
     let dataPath :=
       path_join rt outputDir
         ("pr-" +:+ prNumber +:+ "-data-" +:+ timestamp +:+ ".json") in
     writeFile rt dataPath (JSON_PRData prData);'
     perform (ConsoleLog (nl +:+ "Analysis preparation completed!"));'
     perform (ConsoleLog ("Files saved:" +:+ nl +:+ "- Prompt: " +:+ promptPath
                          +:+ nl +:+ "- Raw data: " +:+ dataPath)))
    report_failure.

(** ** The module's bindings

    [analyze.js] holds two function declarations of the name [analyze] in
    one scope. Function declarations are bound before the module body
    runs, each replacing an earlier binding of its name, so a name refers
    to its last declaration. *)
Definition Handler : Type :=
  Runtime → string → string → string → Options → run unit.

Inductive declaration : Type :=
  | FunctionDeclaration (line : nat) (name : string) (body : Handler).



Definition declared_body (d : declaration) : Handler :=
  match d with FunctionDeclaration _ _ body => body end.

Definition analyze_declarations `{E : RegExpEngine} : list declaration :=
  [ FunctionDeclaration 183 "analyze" analyze_report;
    FunctionDeclaration 283 "analyze" analyze_prompt ].



(** ** Content requests in flight

    [files.map(async (file) => ...)] runs each callback up to its first
    [await] before it moves to the next file, and the callback calls
    [getFileContent] for the base and then for the head reference; each
    call runs up to the request it hands to the client. So when [map]
    returns, every request below has been issued, in this order, and no
    response has been handled: responses are handled by the event loop
    only after the running code has yielded. *)
Record ContentRequest := {
  req_owner : string;
  req_repo : string;
  req_path : string;
  req_ref : string;
}.

Definition getFileContent_requests (repoString path ref : string)
  : list ContentRequest :=
  match parseRepoString repoString with
  | Err _ => []
  | Ok r => [ {| req_owner := owner r; req_repo := repo r;
                 req_path := path; req_ref := ref |} ]
  end.

Definition fetchContents_requests (repoString : string) (pr : PullRequest)
    (file : ChangedFile) : list ContentRequest :=
  getFileContent_requests repoString (filename file) (sha (base pr))
  ++ getFileContent_requests repoString (filename file) (sha (head pr)).

Definition content_requests (repoString : string) (pr : PullRequest)
    (files : list ChangedFile) : list ContentRequest :=
  files ≫= fetchContents_requests repoString pr.

Inductive event : Type :=
  | Issued (request : ContentRequest)
  | Settled (request : ContentRequest).

(** The events of the content phase when the responses are handled in the
    order [completion]. *)
Definition content_phase (repoString : string) (pr : PullRequest)
    (files : list ChangedFile) (completion : list ContentRequest)
  : list event :=
  (Issued <$> content_requests repoString pr files)
  ++ (Settled <$> completion).

Definition step (in_flight : Z) (e : event) : Z :=
  match e with
  | Issued _ => in_flight + 1
  | Settled _ => in_flight - 1
  end.

(** The largest number of requests in flight along a trace that starts
    with [in_flight] of them. *)
Fixpoint peak_from (in_flight : Z) (trace : list event) : Z :=
  match trace with
  | [] => in_flight
  | e :: rest => Z.max in_flight (peak_from (step in_flight e) rest)
  end.

Definition peak (trace : list event) : Z := peak_from 0 trace.

(** ** A sample pull request

    Three changed files, two commits, three reviews by two reviewers, and
    clients that answer for the repository [octo/cat]. *)
Module Sample.

Definition pr : PullRequest := {|
  title := "Rotate logs";
  body := None;
  user := {| login := "carol" |};
  base := {| ref := "main"; sha := "b0" |};
  head := {| ref := "logs"; sha := "h1" |};
|}.

Definition changed (path : string) (added removed : Z) : ChangedFile := {|
  filename := path;
  status := "modified";
  additions := added;
  deletions := removed;
  patch := Some "@@";
|}.

Definition a_txt : ChangedFile := changed "a.txt" 3 1.
Definition b_log : ChangedFile := changed "b.log" 10 0.
Definition c_txt : ChangedFile := changed "c.txt" 2 5.

Definition changedFileList : list ChangedFile := [a_txt; b_log; c_txt].

Definition commitList : list Commit :=
  [ {| commit := {| message := "first";
                    author := {| name := "carol"; date := "2024-01-01T00:00:00Z" |} |} |};
    {| commit := {| message := "second";
                    author := {| name := "carol"; date := "2024-01-02T00:00:00Z" |} |} |} ].

Definition review (handle : string) : Review :=
  {| reviewer := {| login := handle |}; state := "APPROVED" |}.

Definition reviewList : list Review :=
  [review "alice"; review "bob"; review "alice"].

(** Every file exists at the head; [c.txt] is new, so it is absent at
    the base. *)
Definition contents (path ref : string) : result string :=
  if bool_decide (path = "c.txt" ∧ ref = "b0")
  then Err (RequestError 404)
  else Ok "aGVsbG8=".

Definition octokit : Octokit := {|
  pulls_get := λ _ _ _, Ok pr;
  pulls_listFiles := λ _ _ _, Ok changedFileList;
  pulls_listCommits := λ _ _ _, Ok commitList;
  pulls_listReviews := λ _ _ _, Ok reviewList;
  repos_getContent := λ _ _ path ref, contents path ref;
  Buffer_decode := λ _, "hello";
|}.

(** The same provider, with a credential that may not read [a.txt] at
    the head. *)
Definition unauthorized : Octokit := {|
  pulls_get := λ _ _ _, Ok pr;
  pulls_listFiles := λ _ _ _, Ok [a_txt];
  pulls_listCommits := λ _ _ _, Ok commitList;
  pulls_listReviews := λ _ _ _, Ok reviewList;
  repos_getContent := λ _ _ path ref,
    if bool_decide (ref = "h1") then Err (RequestError 401) else Ok "aGVsbG8=";
  Buffer_decode := λ _, "hello";
|}.

(** The same provider, throttling the commit list. *)
Definition throttled : Octokit := {|
  pulls_get := λ _ _ _, Ok pr;
  pulls_listFiles := λ _ _ _, Ok changedFileList;
  pulls_listCommits := λ _ _ _, Err (RequestError 429);
  pulls_listReviews := λ _ _ _, Ok reviewList;
  repos_getContent := λ _ _ path ref, contents path ref;
  Buffer_decode := λ _, "hello";
|}.

(** The changed files with their contents, as the aggregation merges
    them. *)
Definition a_file : FileChange :=
  {| file := a_txt; baseContent := Some "hello"; headContent := Some "hello" |}.
Definition b_file : FileChange :=
  {| file := b_log; baseContent := Some "hello"; headContent := Some "hello" |}.
Definition c_file : FileChange :=
  {| file := c_txt; baseContent := None; headContent := Some "hello" |}.

Definition fileList : list FileChange := [a_file; b_file; c_file].

Definition config (limit : option Z) (patterns : option (list string))
  : Config :=
  {| github := Some {| token := Some "t0k" |};
     analysis := Some {| maxFiles := limit;
                         excludePaths := patterns;
                         aiModel := None |} |}.

Definition prData : PRData := {|
  pullRequest := pr;
  files := fileList;
  commits := commitList;
  reviews := reviewList;
  metadata := {| totalCommits := 2; totalFiles := 3; totalAdditions := 15;
                 totalDeletions := 6; totalReviews := 3 |};
|}.

Definition runtime (client : Octokit) : Runtime := {|
  loadConfig := λ _, Ok (config (Some 2) (Some [".*\.log$"]));
  Octokit_new := λ _, client;
  Date_toISOString := "2024-01-03T04:05:06.789Z";
  process_cwd := "/work";
  path_join := λ dir leaf, dir +:+ "/" +:+ leaf;
  fs_mkdir := λ _, Ok ();
  fs_writeFile := λ _ _, Ok ();
|}.

Definition options : Options := {| opt_config := None; opt_output := None |}.

End Sample.

(** * The configuration commands

    [src/utils/config.js], [src/commands/validate.js] and
    [src/commands/configure.js]. *)

(** ** JSON values

    What [JSON.parse] returns. An object is a finite map from its keys;
    the order of the keys, which only [JSON.stringify] shows, is not kept.
    A number is the exact value of its literal; the rounding to a 64-bit
    float is not modelled. *)
#[warnings="-register-all"]
Inductive json : Type :=
  | JNull
  | JBool (b : bool)
  | JNumber (q : Q)
  | JString (s : string)
  | JArray (items : list json)
  | JObject (fields : gmap string json).

(** JavaScript truthiness of a value that may be [undefined]. *)
Definition truthy (v : option json) : bool :=
  match v with
  | None | Some JNull => false
  | Some (JBool b) => b
  | Some (JNumber q) => negb (Qnum q =? 0)
  | Some (JString s) => negb (String.eqb s "")
  | Some (JArray _) | Some (JObject _) => true
  end.

(** [Number.isInteger(q)] and [q < 1] for a number. *)
Definition Number_isInteger (q : Q) : bool :=
  Qnum q mod Z.pos (Qden q) =? 0.

Definition less_than_one (q : Q) : bool := Qnum q <? Z.pos (Qden q).

(** The error of reading a property of [null]. *)
Definition TypeError_null (key : string) : exn :=
  Error ("Cannot read properties of null (reading '" +:+ key +:+ "')").

(** [v.key] for a value [v] read from JSON: it throws on [null]; a
    boolean, number, string or array has none of the keys that the code
    reads. *)
Definition member (key : string) (v : json) : result (option json) :=
  match v with
  | JNull => Err (TypeError_null key)
  | JObject fields => Ok (fields !! key)
  | _ => Ok None
  end.

(** [v?.key], and [v.key] for a truthy [v]. *)
Definition optional_member (key : string) (v : option json) : option json :=
  match v with
  | Some (JObject fields) => fields !! key
  | _ => None
  end.

(** [v || fallback]. *)
Definition or_default (v : option json) (fallback : json) : json :=
  if truthy v then default fallback v else fallback.

(** ** src/utils/config.js

    A path is absolute and given by its segments, so [path.dirname] drops
    the last segment and leaves the root as it is. The file system is the
    finite map of the files that exist; a file holds the text of a JSON
    value, identified with the value, or a content that [fs.readFile] or
    [JSON.parse] refuses with a message. Whether [fs.writeFile] refuses a
    path (a missing directory, a missing permission), and with which
    message, is part of what the process finds around it. *)
Module ConfigFile.

Abbreviation path := (list string).

Inductive content : Type :=
  | Stringified (value : json)
  | Unparsable (parse_message : string).

Abbreviation FileSystem := (gmap path content).

Record Process := {
  cwd : path;
  homedir : path;
  writeFile_error : path → option string;
}.

Definition CONFIG_FILENAME : string := ".pullmasterrc".

(** [path.join(dir, leaf)] and [path.dirname(p)]. *)
Definition join (dir : path) (leaf : string) : path := dir ++ [leaf].

Definition dirname (p : path) : path := take (length p - 1) p.

(** The loop of [findConfig]; [fuel] bounds the number of steps upward. *)
Fixpoint findConfig_loop (fs : FileSystem) (proc : Process) (fuel : nat)
    (currentPath : path) : path :=
  let configPath := join currentPath CONFIG_FILENAME in
  if bool_decide (is_Some (fs !! configPath)) then configPath
  else
    let parentPath := dirname currentPath in
    if bool_decide (parentPath = currentPath)
    then join (homedir proc) CONFIG_FILENAME
    else match fuel with
         | O => join (homedir proc) CONFIG_FILENAME
         | S fuel' => findConfig_loop fs proc fuel' parentPath
         end.

(** [findConfig(startPath)]: a path of n segments has n proper
    ancestors. *)
Definition findConfig (fs : FileSystem) (proc : Process) (startPath : path)
  : path :=
  findConfig_loop fs proc (length startPath) startPath.

Definition NotFound : exn :=
  Error "Configuration file not found. Run 'pullmaster configure --init' to create one.".

(** [loadConfig(configPath)]; [None] is a missing or empty argument. *)
Definition loadConfig (fs : FileSystem) (proc : Process)
    (configPath : option path) : result json :=
  let filePath := default (findConfig fs proc (cwd proc)) configPath in
  match fs !! filePath with
  | None => Err NotFound
  | Some (Stringified value) => Ok value
  | Some (Unparsable parse_message) =>
      Err (Error ("Error loading configuration: " +:+ parse_message))
  end.


End ConfigFile.

(** ** What a configuration command does *)

(** Console output and how the command ends: [process.exit] ends the
    process where it is called. *)
Inductive action : Type :=
  | Log (text : string)
  | LogJSON (value : json)
  | Warn (text : string)
  | WarnError (label : string) (error : exn).

Inductive ending (A : Type) : Type :=
  | Returned (value : A)
  | Exited (code : Z).
Arguments Returned {A} value.
Arguments Exited {A} code.

(** ** src/commands/validate.js *)

Record ValidateOptions := {
  validate_config : option ConfigFile.path;
  quiet : bool;
}.

Definition is_array (v : option json) : bool :=
  match v with Some (JArray _) => true | _ => false end.

Definition is_string (v : option json) : bool :=
  match v with Some (JString _) => true | _ => false end.

(** [typeof v !== 'undefined' && (!Number.isInteger(v) || v < 1)]. *)
Definition invalid_maxFiles (v : option json) : bool :=
  match v with
  | None => false
  | Some (JNumber q) => negb (Number_isInteger q) || less_than_one q
  | Some _ => true
  end.

(** The issues that [validate] collects. *)
Definition validate_issues (config : json) : result (list string) :=
  github ← member "github" config;
  let issues :=
    if negb (truthy (optional_member "token" github))
    then ["GitHub token is missing"] else [] in
  analysis ← member "analysis" config;
  if truthy analysis then
    let maxFiles := optional_member "maxFiles" analysis in
    let excludePaths := optional_member "excludePaths" analysis in
    let aiModel := optional_member "aiModel" analysis in
    Ok (issues
        ++ (if invalid_maxFiles maxFiles
            then ["analysis.maxFiles must be a positive integer"] else [])
        ++ (if truthy excludePaths && negb (is_array excludePaths)
            then ["analysis.excludePaths must be an array"] else [])
        ++ (if truthy aiModel && negb (is_string aiModel)
            then ["analysis.aiModel must be a string"] else []))
  else Ok issues.

Definition validate (fs : ConfigFile.FileSystem) (proc : ConfigFile.Process)
    (options : ValidateOptions) : list action * ending bool :=
  match (config ← ConfigFile.loadConfig fs proc (validate_config options);
         issues ← validate_issues config;
         Ok (config, issues)) with
  | Err error =>
      (if quiet options then []
       else [WarnError "Error validating configuration:" error],
       Exited 1)
  | Ok (config, issues) =>
      if quiet options then ([], Returned (bool_decide (issues = [])))
      else if bool_decide (issues = []) then
        ([Log "Configuration is valid! ✅";
          Log (nl +:+ "Current configuration:");
          LogJSON config],
         Returned true)
      else
        ([Warn "Configuration validation failed! ❌";
          Warn (nl +:+ "Issues found:")]
         ++ ((λ issue, Warn ("- " +:+ issue)) <$> issues),
         Exited 1)
  end.

(** ** src/commands/configure.js *)

Record ConfigureOptions := {
  githubToken : option string;
  init : bool;
}.

(** [config.github = config.github || {}; config.github.token = token]
    on an object: a [github] that is truthy and no object keeps no
    property. *)
Definition set_token (tokenValue : string) (config : gmap string json)
  : gmap string json :=
  let github := or_default (config !! "github") (JObject ∅) in
  match github with
  | JObject fields =>
      <["github" := JObject (<["token" := JString tokenValue]> fields)]> config
  | _ => <["github" := github]> config
  end.

(** The object literal of the [--init] branch without its spread. *)
Definition init_defaults (config : gmap string json) : gmap string json :=
  let github := config !! "github" in
  let analysis := config !! "analysis" in
  {[ "github" :=
       JObject {[ "token" := or_default (optional_member "token" github)
                               (JString "") ]};
     "analysis" :=
       JObject {[ "maxFiles" := or_default (optional_member "maxFiles" analysis)
                                  (JNumber 50);
                  "excludePaths" := or_default (optional_member "excludePaths" analysis)
                                      (JArray []);
                  "aiModel" := or_default (optional_member "aiModel" analysis)
                                 (JString "gpt-4") ]} ]}.

(** [{ github: ..., analysis: ..., ...config }]: the keys of [config] come
    last and win. *)
Definition with_defaults (config : gmap string json) : gmap string json :=
  config ∪ init_defaults config.

(** The configuration that [configure] saves, from the one it starts
    with. *)
Definition updated (options : ConfigureOptions) (config : gmap string json)
  : gmap string json :=
  let config :=
    if truthy_string (githubToken options)
    then set_token (default "" (githubToken options)) config
    else config in
  if init options then with_defaults config else config.



(** The typed configuration of the analysis commands as the JSON object
    that the code reads. *)
Definition json_of_config (config : Config) : json :=
  JObject
    ((match github config with
      | Some g =>
          {[ "github" := JObject (match token g with
                                  | Some t => {[ "token" := JString t ]}
                                  | None => ∅
                                  end) ]}
      | None => ∅
      end)
     ∪ (match analysis config with
        | Some a =>
            {[ "analysis" :=
                 JObject
                   ((match maxFiles a with
                     | Some n => {[ "maxFiles" := JNumber (inject_Z n) ]}
                     | None => ∅
                     end)
                    ∪ (match excludePaths a with
                       | Some ps => {[ "excludePaths" := JArray (JString <$> ps) ]}
                       | None => ∅
                       end)
                    ∪ (match aiModel a with
                       | Some m => {[ "aiModel" := JString m ]}
                       | None => ∅
                       end)) ]}
        | None => ∅
        end)).

(** ** Sample configurations *)
Module Cases.

(** The sample runtime with a configuration that has no token. *)
Definition runtime_without_token : Runtime := {|
  loadConfig := λ _, Ok {| github := Some {| token := None |}; analysis := None |};
  Octokit_new := λ _, Sample.octokit;
  Date_toISOString := "2024-01-03T04:05:06.789Z";
  process_cwd := "/work";
  path_join := λ dir leaf, dir +:+ "/" +:+ leaf;
  fs_mkdir := λ _, Ok ();
  fs_writeFile := λ _ _, Ok ();
|}.

(** A project directory below the home directory, and a file system
    without any configuration file. *)
Definition proc : ConfigFile.Process := {|
  ConfigFile.cwd := ["home"; "carol"; "project"];
  ConfigFile.homedir := ["home"; "carol"];
  ConfigFile.writeFile_error := λ _, None;
|}.



End Cases.

(** * Properties *)

(** ** Properties of parseRepoString *)

Lemma split_nonempty sep s : split sep s ≠ [].
Proof.
  destruct s as [|c rest]; simpl; [done|].
  destruct (Ascii.eqb c sep); [done|].
  by destruct (split sep rest).
Qed.

Lemma split_no_sep sep s : contains_char sep s = false → split sep s = [s].
Proof.
  induction s as [|c rest IH]; simpl; [done|].
  intros [Hc Hrest]%orb_false_iff. rewrite Hc, (IH Hrest). done.
Qed.

Lemma split_app_sep sep o r :
  contains_char sep o = false →
  split sep (o +:+ String sep r) = o :: split sep r.
Proof.
  induction o as [|c rest IH]; simpl.
  - intros _. by rewrite Ascii.eqb_refl.
  - intros [Hc Hrest]%orb_false_iff. rewrite Hc, (IH Hrest). done.
Qed.

Lemma truthy_string_Some s : truthy_string (Some s) = true ↔ s ≠ "".
Proof. destruct s; simpl; split; done. Qed.

Lemma parseRepoString_error s e :
  parseRepoString s = Err e → e = InvalidReference.
Proof.
  unfold parseRepoString.
  destruct (negb _ || negb _); congruence.
Qed.

(** C7. For a reference "owner/repo" (neither part containing the
    separator) parsing succeeds exactly when both parts are non-empty, and
    then returns them; every failure is the invalid-reference error, and
    "owner/", "/repo" and "ownerrepo" all fail with it. *)
Theorem parseRepoString_iff_both_parts (o r : string) :
  contains_char slash o = false →
  contains_char slash r = false →
  (is_ok (parseRepoString (o +:+ "/" +:+ r)) = true ↔ o ≠ "" ∧ r ≠ "")
  ∧ (o ≠ "" → r ≠ "" →
     parseRepoString (o +:+ "/" +:+ r) = Ok {| owner := o; repo := r |})
  ∧ (¬ (o ≠ "" ∧ r ≠ "") →
     parseRepoString (o +:+ "/" +:+ r) = Err InvalidReference)
  ∧ parseRepoString "owner/" = Err InvalidReference
  ∧ parseRepoString "/repo" = Err InvalidReference
  ∧ parseRepoString "ownerrepo" = Err InvalidReference.
Proof.
  intros Ho Hr.
  assert (Hsplit : split slash (o +:+ "/" +:+ r) = [o; r]).
  { change ("/" +:+ r) with (String slash r).
    by rewrite (split_app_sep _ _ _ Ho), (split_no_sep _ _ Hr). }
  assert (Hparse : parseRepoString (o +:+ "/" +:+ r)
                   = if negb (truthy_string (Some o)) || negb (truthy_string (Some r))
                     then Err InvalidReference
                     else Ok {| owner := o; repo := r |}).
  { unfold parseRepoString. by rewrite Hsplit. }
  rewrite Hparse. clear Hsplit Hparse Ho Hr.
  split; [|split; [|split; [|by repeat split]]].
  - destruct o, r; simpl; split; try done; intros [? ?]; done.
  - intros Ho Hr. by destruct o, r.
  - intros Hn. destruct o, r; simpl; try done. by destruct Hn.
Qed.

Lemma parseRepoString_iff_both_parts_witness :
  parseRepoString ("octo" +:+ "/" +:+ "cat") = Ok {| owner := "octo"; repo := "cat" |}.
Proof.
  apply (parseRepoString_iff_both_parts "octo" "cat"); [reflexivity | reflexivity | done | done].
Defined.

(** ** Promises *)

Section Settlements.
Context {A : Type}.
Implicit Types (p : promise A) (r : result A).

Lemma elem_of_settled r r' : r' ∈ settled r ↔ r' = r.
Proof. apply list_elem_of_singleton. Qed.

Lemma elem_of_fulfilments p v : v ∈ fulfilments p ↔ Ok v ∈ p.
Proof.
  unfold fulfilments. rewrite list_elem_of_omap. split.
  - intros ([w|e] & Hin & Heq); by simplify_eq.
  - intros Hin. by exists (Ok v).
Qed.

Lemma elem_of_rejections p e : e ∈ rejections p ↔ Err e ∈ p.
Proof.
  unfold rejections. rewrite list_elem_of_omap. split.
  - intros ([w|e'] & Hin & Heq); by simplify_eq/=.
  - intros Hin. by exists (Err e).
Qed.

End Settlements.

Section Promises.
Context {A B C D : Type}.
Implicit Types (p : promise A) (r : result A).

Lemma elem_of_await p (k : A → promise B) out :
  out ∈ await p k ↔
  (∃ v, Ok v ∈ p ∧ out ∈ k v) ∨ (∃ e, Err e ∈ p ∧ out = Err e).
Proof.
  unfold await. rewrite list_elem_of_bind. split.
  - intros ([v|e] & Hout & Hin).
    + left. by exists v.
    + right. exists e. by apply list_elem_of_singleton in Hout.
  - intros [(v & Hin & Hout)|(e & Hin & ->)].
    + by exists (Ok v).
    + exists (Err e). split; [by apply list_elem_of_singleton|done].
Qed.

(** Awaiting a request and returning its data settles as the request. *)
Lemma await_settled_return r : await (settled r) (λ v, settled (Ok v)) = [r].
Proof. by destruct r. Qed.

Lemma elem_of_all_values (ps : list (promise A)) vs :
  vs ∈ all_values ps ↔ Forall2 (λ p v, Ok v ∈ p) ps vs.
Proof.
  revert vs. induction ps as [|p ps IH]; intros vs; simpl.
  - rewrite list_elem_of_singleton. split; [by intros ->|by inversion 1].
  - rewrite list_elem_of_bind. split.
    + intros (v & Hvs & Hv). apply list_elem_of_bind in Hvs as (ws & Hvs & Hws).
      apply list_elem_of_singleton in Hvs as ->.
      constructor; [by apply elem_of_fulfilments | by apply IH].
    + inversion 1 as [|? v ? ws Hv Hws]; subst.
      exists v. split; [|by apply elem_of_fulfilments].
      apply list_elem_of_bind. exists ws.
      split; [by apply list_elem_of_singleton | by apply IH].
Qed.

Lemma Promise_all_fulfils (ps : list (promise A)) vs :
  Ok vs ∈ Promise_all ps ↔ Forall2 (λ p v, Ok v ∈ p) ps vs.
Proof.
  unfold Promise_all. rewrite elem_of_app, !list_elem_of_fmap.
  rewrite <- elem_of_all_values. split.
  - intros [(ws & Heq & Hin)|(e & Heq & _)]; by simplify_eq.
  - intros Hin. left. by exists vs.
Qed.

Lemma Promise_all_rejects (ps : list (promise A)) e :
  Err e ∈ Promise_all ps ↔ ∃ p, p ∈ ps ∧ Err e ∈ p.
Proof.
  unfold Promise_all. rewrite elem_of_app, !list_elem_of_fmap. split.
  - intros [(ws & Heq & _)|(e' & Heq & Hin)]; simplify_eq.
    apply list_elem_of_bind in Hin as (p & He & Hp).
    exists p. split; [done | by apply elem_of_rejections].
  - intros (p & Hp & He). right. exists e. split; [done|].
    apply list_elem_of_bind. exists p. split; [by apply elem_of_rejections | done].
Qed.

Lemma Promise_all2_fulfils (pa : promise A) (pb : promise B) a b :
  Ok (a, b) ∈ Promise_all2 pa pb ↔ Ok a ∈ pa ∧ Ok b ∈ pb.
Proof.
  unfold Promise_all2. rewrite elem_of_app, list_elem_of_fmap. split.
  - intros [Hin|(e & Heq & _)]; [|done].
    apply list_elem_of_bind in Hin as (a' & Hin & Ha%elem_of_fulfilments).
    apply list_elem_of_bind in Hin as (b' & Hin & Hb%elem_of_fulfilments).
    apply list_elem_of_singleton in Hin. by simplify_eq.
  - intros [Ha%elem_of_fulfilments Hb%elem_of_fulfilments]. left.
    apply list_elem_of_bind. exists a. split; [|done].
    apply list_elem_of_bind. exists b. split; [|done].
    by apply list_elem_of_singleton.
Qed.

Lemma Promise_all2_rejects (pa : promise A) (pb : promise B) e :
  Err e ∈ Promise_all2 pa pb ↔ Err e ∈ pa ∨ Err e ∈ pb.
Proof.
  unfold Promise_all2. rewrite elem_of_app, list_elem_of_fmap. split.
  - intros [Hin|(e' & Heq & Hin)].
    + apply list_elem_of_bind in Hin as (a' & Hin & Ha).
      apply list_elem_of_bind in Hin as (b' & Hin & Hb).
      by apply list_elem_of_singleton in Hin.
    + simplify_eq. apply elem_of_app in Hin.
      by rewrite !elem_of_rejections in Hin.
  - intros Hin. right. exists e. split; [done|].
    apply elem_of_app. by rewrite !elem_of_rejections.
Qed.

Lemma Promise_all4_fulfils (pa : promise A) (pb : promise B)
    (pc : promise C) (pd : promise D) a b c d :
  Ok (a, b, c, d) ∈ Promise_all4 pa pb pc pd ↔
  Ok a ∈ pa ∧ Ok b ∈ pb ∧ Ok c ∈ pc ∧ Ok d ∈ pd.
Proof.
  unfold Promise_all4. rewrite elem_of_app, list_elem_of_fmap. split.
  - intros [Hin|(e & Heq & _)]; [|done].
    apply list_elem_of_bind in Hin as (a' & Hin & Ha%elem_of_fulfilments).
    apply list_elem_of_bind in Hin as (b' & Hin & Hb%elem_of_fulfilments).
    apply list_elem_of_bind in Hin as (c' & Hin & Hc%elem_of_fulfilments).
    apply list_elem_of_bind in Hin as (d' & Hin & Hd%elem_of_fulfilments).
    apply list_elem_of_singleton in Hin. by simplify_eq.
  - intros (Ha%elem_of_fulfilments & Hb%elem_of_fulfilments
            & Hc%elem_of_fulfilments & Hd%elem_of_fulfilments). left.
    apply list_elem_of_bind. exists a. split; [|done].
    apply list_elem_of_bind. exists b. split; [|done].
    apply list_elem_of_bind. exists c. split; [|done].
    apply list_elem_of_bind. exists d. split; [|done].
    by apply list_elem_of_singleton.
Qed.

Lemma Promise_all4_rejects (pa : promise A) (pb : promise B)
    (pc : promise C) (pd : promise D) e :
  Err e ∈ Promise_all4 pa pb pc pd ↔
  Err e ∈ pa ∨ Err e ∈ pb ∨ Err e ∈ pc ∨ Err e ∈ pd.
Proof.
  unfold Promise_all4. rewrite elem_of_app, list_elem_of_fmap. split.
  - intros [Hin|(e' & Heq & Hin)].
    + apply list_elem_of_bind in Hin as (a' & Hin & Ha).
      apply list_elem_of_bind in Hin as (b' & Hin & Hb).
      apply list_elem_of_bind in Hin as (c' & Hin & Hc).
      apply list_elem_of_bind in Hin as (d' & Hin & Hd).
      by apply list_elem_of_singleton in Hin.
    + simplify_eq. rewrite !elem_of_app in Hin.
      by rewrite !elem_of_rejections in Hin.
  - intros Hin. right. exists e. split; [done|].
    rewrite !elem_of_app. by rewrite !elem_of_rejections.
Qed.

End Promises.

(** ** GitHubService: the getters *)

Section Getters.
Variables (octokit : Octokit) (repoString prNumber : string).

(** Each getter settles in exactly one way: as the parse error, or as the
    provider's answer. *)
Lemma getPullRequest_settles :
  getPullRequest octokit repoString prNumber =
  [r ← parseRepoString repoString; pulls_get octokit (owner r) (repo r) prNumber].
Proof.
  unfold getPullRequest. destruct (parseRepoString repoString); [|done].
  apply await_settled_return.
Qed.

Lemma getPullRequestFiles_settles :
  getPullRequestFiles octokit repoString prNumber =
  [r ← parseRepoString repoString; pulls_listFiles octokit (owner r) (repo r) prNumber].
Proof.
  unfold getPullRequestFiles. destruct (parseRepoString repoString); [|done].
  apply await_settled_return.
Qed.

Lemma getPullRequestCommits_settles :
  getPullRequestCommits octokit repoString prNumber =
  [r ← parseRepoString repoString; pulls_listCommits octokit (owner r) (repo r) prNumber].
Proof.
  unfold getPullRequestCommits. destruct (parseRepoString repoString); [|done].
  apply await_settled_return.
Qed.

Lemma getPullRequestReviews_settles :
  getPullRequestReviews octokit repoString prNumber =
  [r ← parseRepoString repoString; pulls_listReviews octokit (owner r) (repo r) prNumber].
Proof.
  unfold getPullRequestReviews. destruct (parseRepoString repoString); [|done].
  apply await_settled_return.
Qed.

(** What [getFileContent] settles as, by cases on the provider's answer. *)
Lemma getFileContent_settles path ref :
  getFileContent octokit repoString path ref =
  [ r ← parseRepoString repoString;
    match repos_getContent octokit (owner r) (repo r) path ref with
    | Ok content => Ok (Some (Buffer_decode octokit content))
    | Err error =>
        if bool_decide (error_status error = Some 404) then Ok None else Err error
    end ].
Proof.
  unfold getFileContent. destruct (parseRepoString repoString) as [r|]; [|done].
  simpl. destruct (repos_getContent _ _ _ _ _); [done|].
  by case_bool_decide.
Qed.

Lemma getFileContent_rejects path ref e :
  Err e ∈ getFileContent octokit repoString path ref ↔
  parseRepoString repoString = Err e
  ∨ ∃ r, parseRepoString repoString = Ok r
         ∧ repos_getContent octokit (owner r) (repo r) path ref = Err e
         ∧ error_status e ≠ Some 404.
Proof.
  rewrite getFileContent_settles, list_elem_of_singleton.
  destruct (parseRepoString repoString) as [r|e0]; simpl.
  - destruct (repos_getContent _ _ _ _ _) as [content|e1] eqn:Hget.
    + split; [done|]. intros [|(r' & ? & ? & ?)]; congruence.
    + case_bool_decide as Hst.
      * split; [done|]. intros [|(r' & ? & ? & ?)]; congruence.
      * split.
        -- intros [= ->]. right. by exists r.
        -- intros [|(r' & ? & ? & ?)]; congruence.
  - split; [intros [= ->]; by left|].
    intros [|(r' & ? & ? & ?)]; congruence.
Qed.

(** A response without content, such as the one for a directory or a
    submodule: the [TypeError] of [Buffer.from] has no status, and
    [getFileContent] throws it again. *)
Remark getFileContent_without_content (r : RepoRef) (path ref message : string) :
  parseRepoString repoString = Ok r →
  repos_getContent octokit (owner r) (repo r) path ref = Err (TypeError message) →
  getFileContent octokit repoString path ref = [Err (TypeError message)].
Proof.
  intros Hparse Hget. by rewrite getFileContent_settles, Hparse; simpl; rewrite Hget.
Qed.

(** C3. With a well-formed repository string, a file that the provider
    reports absent at the reference (an error of status 404) makes
    [getFileContent] fulfil with [null]; it does not reject. Any other
    provider error is the rejection reason, as it is; a response is
    decoded and returned. *)
Theorem getFileContent_absent_is_null (r : RepoRef) (path ref : string) :
  parseRepoString repoString = Ok r →
  (∀ e, repos_getContent octokit (owner r) (repo r) path ref = Err e →
        error_status e = Some 404 →
        getFileContent octokit repoString path ref = [Ok None])
  ∧ (∀ e, repos_getContent octokit (owner r) (repo r) path ref = Err e →
          error_status e ≠ Some 404 →
          getFileContent octokit repoString path ref = [Err e])
  ∧ (∀ content,
        repos_getContent octokit (owner r) (repo r) path ref = Ok content →
        getFileContent octokit repoString path ref
        = [Ok (Some (Buffer_decode octokit content))]).
Proof.
  intros Hparse. rewrite getFileContent_settles, Hparse. simpl.
  split; [|split].
  - intros e -> Hst. by rewrite bool_decide_true.
  - intros e -> Hst. by rewrite bool_decide_false.
  - by intros content ->.
Qed.

End Getters.

Lemma getFileContent_absent_is_null_witness :
  getFileContent Sample.octokit "octo/cat" "c.txt" "b0" = [Ok None]
  ∧ getFileContent Sample.unauthorized "octo/cat" "a.txt" "h1"
    = [Err (RequestError 401)].
Proof.
  split.
  - eapply (getFileContent_absent_is_null Sample.octokit "octo/cat"
              {| owner := "octo"; repo := "cat" |} "c.txt" "b0");
      reflexivity.
  - eapply (getFileContent_absent_is_null Sample.unauthorized "octo/cat"
              {| owner := "octo"; repo := "cat" |} "a.txt" "h1");
      [reflexivity | reflexivity | done].
Defined.

(** ** GitHubService.analyzePR *)

Section Aggregation.
Variables (octokit : Octokit) (repoString prNumber : string).

Local Abbreviation metadataFetch := (getPullRequest octokit repoString prNumber).
Local Abbreviation filesFetch := (getPullRequestFiles octokit repoString prNumber).
Local Abbreviation commitsFetch := (getPullRequestCommits octokit repoString prNumber).
Local Abbreviation reviewsFetch := (getPullRequestReviews octokit repoString prNumber).

(** A request has one answer: a fetch does not both fulfil and reject, and
    fulfils with one value only. *)
Lemma metadataFetch_one r1 r2 : r1 ∈ metadataFetch → r2 ∈ metadataFetch → r1 = r2.
Proof. rewrite getPullRequest_settles, !list_elem_of_singleton. congruence. Qed.

Lemma filesFetch_one r1 r2 : r1 ∈ filesFetch → r2 ∈ filesFetch → r1 = r2.
Proof. rewrite getPullRequestFiles_settles, !list_elem_of_singleton. congruence. Qed.

Lemma commitsFetch_one r1 r2 : r1 ∈ commitsFetch → r2 ∈ commitsFetch → r1 = r2.
Proof. rewrite getPullRequestCommits_settles, !list_elem_of_singleton. congruence. Qed.

Lemma reviewsFetch_one r1 r2 : r1 ∈ reviewsFetch → r2 ∈ reviewsFetch → r1 = r2.
Proof. rewrite getPullRequestReviews_settles, !list_elem_of_singleton. congruence. Qed.

Lemma getFileContent_one path ref r1 r2 :
  r1 ∈ getFileContent octokit repoString path ref →
  r2 ∈ getFileContent octokit repoString path ref → r1 = r2.
Proof. rewrite getFileContent_settles, !list_elem_of_singleton. congruence. Qed.

Lemma fetchContents_fulfils pr f fc :
  Ok fc ∈ fetchContents octokit repoString pr f ↔
  ∃ b h,
    Ok b ∈ getFileContent octokit repoString (filename f) (sha (base pr))
    ∧ Ok h ∈ getFileContent octokit repoString (filename f) (sha (head pr))
    ∧ fc = {| file := f; baseContent := b; headContent := h |}.
Proof.
  unfold fetchContents. rewrite elem_of_await. split.
  - intros [([b h] & Hin & Hout)|(e & _ & ?)]; [|done].
    apply Promise_all2_fulfils in Hin as [Hb Hh].
    apply elem_of_settled in Hout. exists b, h. by simplify_eq.
  - intros (b & h & Hb & Hh & ->). left. exists (b, h).
    split; [by apply Promise_all2_fulfils | by apply elem_of_settled].
Qed.

Lemma fetchContents_rejects pr f e :
  Err e ∈ fetchContents octokit repoString pr f ↔
  Err e ∈ getFileContent octokit repoString (filename f) (sha (base pr))
  ∨ Err e ∈ getFileContent octokit repoString (filename f) (sha (head pr)).
Proof.
  unfold fetchContents. rewrite elem_of_await. split.
  - intros [([b h] & _ & Hout)|(e' & Hin & ?)].
    + by apply elem_of_settled in Hout.
    + simplify_eq. by apply Promise_all2_rejects.
  - intros Hin. right. exists e. by rewrite Promise_all2_rejects.
Qed.

Lemma analyzePR_fulfils d :
  Ok d ∈ analyzePR octokit repoString prNumber ↔
  ∃ pr fs cs rv fcs,
    Ok pr ∈ metadataFetch ∧ Ok fs ∈ filesFetch
    ∧ Ok cs ∈ commitsFetch ∧ Ok rv ∈ reviewsFetch
    ∧ Forall2 (λ f fc, Ok fc ∈ fetchContents octokit repoString pr f) fs fcs
    ∧ d = assembled pr fs cs rv fcs.
Proof.
  unfold analyzePR. rewrite elem_of_await. split.
  - intros [([[[pr fs] cs] rv] & Hin & Hout)|(e & _ & ?)]; [|done].
    apply Promise_all4_fulfils in Hin as (Hpr & Hfs & Hcs & Hrv).
    apply elem_of_await in Hout as [(fcs & Hfcs & Hout)|(e & _ & ?)]; [|done].
    apply elem_of_settled in Hout. apply Promise_all_fulfils in Hfcs.
    apply Forall2_fmap_l in Hfcs.
    exists pr, fs, cs, rv, fcs. by simplify_eq.
  - intros (pr & fs & cs & rv & fcs & Hpr & Hfs & Hcs & Hrv & Hfcs & ->).
    left. exists (pr, fs, cs, rv). split; [by apply Promise_all4_fulfils|].
    apply elem_of_await. left. exists fcs.
    split; [|by apply elem_of_settled].
    apply Promise_all_fulfils. by apply Forall2_fmap_l.
Qed.

Lemma analyzePR_rejects e :
  Err e ∈ analyzePR octokit repoString prNumber ↔
  (Err e ∈ metadataFetch ∨ Err e ∈ filesFetch
   ∨ Err e ∈ commitsFetch ∨ Err e ∈ reviewsFetch)
  ∨ ∃ pr fs cs rv f,
      Ok pr ∈ metadataFetch ∧ Ok fs ∈ filesFetch
      ∧ Ok cs ∈ commitsFetch ∧ Ok rv ∈ reviewsFetch
      ∧ f ∈ fs ∧ Err e ∈ fetchContents octokit repoString pr f.
Proof.
  unfold analyzePR. rewrite elem_of_await. split.
  - intros [([[[pr fs] cs] rv] & Hin & Hout)|(e' & Hin & ?)].
    + apply Promise_all4_fulfils in Hin as (Hpr & Hfs & Hcs & Hrv).
      apply elem_of_await in Hout as [(fcs & _ & Hout)|(e' & Hin & ?)].
      { by apply elem_of_settled in Hout. }
      simplify_eq. apply Promise_all_rejects in Hin as (p & Hp & He).
      apply list_elem_of_fmap in Hp as (f & -> & Hf).
      right. by exists pr, fs, cs, rv, f.
    + simplify_eq. left. by apply Promise_all4_rejects.
  - intros [Htop|(pr & fs & cs & rv & f & Hpr & Hfs & Hcs & Hrv & Hf & He)].
    + right. exists e. by rewrite Promise_all4_rejects.
    + left. exists (pr, fs, cs, rv). split; [by apply Promise_all4_fulfils|].
      apply elem_of_await. right. exists e. split; [|done].
      apply Promise_all_rejects. exists (fetchContents octokit repoString pr f).
      split; [by apply list_elem_of_fmap_2 | done].
Qed.

Lemma fetchContents_settles pr f :
  (∃ fc, Ok fc ∈ fetchContents octokit repoString pr f)
  ∨ (∃ e, Err e ∈ fetchContents octokit repoString pr f).
Proof.
  pose proof (getFileContent_settles octokit repoString (filename f) (sha (base pr))) as Hb.
  pose proof (getFileContent_settles octokit repoString (filename f) (sha (head pr))) as Hh.
  destruct (_ ≫= _) as [b|e] in Hb.
  - destruct (_ ≫= _) as [h|e] in Hh.
    + left. eexists. apply fetchContents_fulfils. exists b, h.
      rewrite Hb, Hh. by rewrite !list_elem_of_singleton.
    + right. exists e. apply fetchContents_rejects. right.
      rewrite Hh. by apply list_elem_of_singleton.
  - right. exists e. apply fetchContents_rejects. left.
    rewrite Hb. by apply list_elem_of_singleton.
Qed.

Lemma content_phase_settles pr fs :
  (∃ fcs, Forall2 (λ f fc, Ok fc ∈ fetchContents octokit repoString pr f) fs fcs)
  ∨ (∃ f e, f ∈ fs ∧ Err e ∈ fetchContents octokit repoString pr f).
Proof.
  induction fs as [|f fs IH].
  - left. exists []. constructor.
  - destruct (fetchContents_settles pr f) as [[fc Hfc]|[e He]].
    + destruct IH as [[fcs Hfcs]|(f' & e & Hf' & He)].
      * left. exists (fc :: fcs). by constructor.
      * right. exists f', e. split; [by right | done].
    + right. exists f, e. split; [by left | done].
Qed.

(** The aggregation always settles, as a record or as a failure. *)
Lemma analyzePR_settles : ∃ out, out ∈ analyzePR octokit repoString prNumber.
Proof.
  pose proof (getPullRequest_settles octokit repoString prNumber) as Hpr.
  pose proof (getPullRequestFiles_settles octokit repoString prNumber) as Hfs.
  pose proof (getPullRequestCommits_settles octokit repoString prNumber) as Hcs.
  pose proof (getPullRequestReviews_settles octokit repoString prNumber) as Hrv.
  destruct (_ ≫= _) as [pr|e] in Hpr;
    [|exists (Err e); apply analyzePR_rejects; left; left;
      rewrite Hpr; by apply list_elem_of_singleton].
  destruct (_ ≫= _) as [fs|e] in Hfs;
    [|exists (Err e); apply analyzePR_rejects; left; right; left;
      rewrite Hfs; by apply list_elem_of_singleton].
  destruct (_ ≫= _) as [cs|e] in Hcs;
    [|exists (Err e); apply analyzePR_rejects; left; right; right; left;
      rewrite Hcs; by apply list_elem_of_singleton].
  destruct (_ ≫= _) as [rv|e] in Hrv;
    [|exists (Err e); apply analyzePR_rejects; left; right; right; right;
      rewrite Hrv; by apply list_elem_of_singleton].
  destruct (content_phase_settles pr fs) as [[fcs Hfcs]|(f & e & Hf & He)].
  - exists (Ok (assembled pr fs cs rv fcs)). apply analyzePR_fulfils.
    exists pr, fs, cs, rv, fcs. rewrite Hpr, Hfs, Hcs, Hrv.
    by rewrite !list_elem_of_singleton.
  - exists (Err e). apply analyzePR_rejects. right.
    exists pr, fs, cs, rv, f. rewrite Hpr, Hfs, Hcs, Hrv.
    by rewrite !list_elem_of_singleton.
Qed.

(** C4. When one of the four top-level fetches fails, the aggregation
    fails: it may fail with that error, every way it settles is a failure
    carrying the error of a failed top-level fetch, unchanged, and no
    record is produced. *)
Theorem analyzePR_top_level_failure (e : exn) :
  Err e ∈ metadataFetch ∨ Err e ∈ filesFetch
  ∨ Err e ∈ commitsFetch ∨ Err e ∈ reviewsFetch →
  Err e ∈ analyzePR octokit repoString prNumber
  ∧ (∀ out, out ∈ analyzePR octokit repoString prNumber →
       ∃ e', out = Err e'
             ∧ (Err e' ∈ metadataFetch ∨ Err e' ∈ filesFetch
                ∨ Err e' ∈ commitsFetch ∨ Err e' ∈ reviewsFetch))
  ∧ (∀ d, Ok d ∉ analyzePR octokit repoString prNumber).
Proof.
  intros Hfail.
  assert (Hno : ∀ pr fs cs rv,
             Ok pr ∈ metadataFetch → Ok fs ∈ filesFetch →
             Ok cs ∈ commitsFetch → Ok rv ∈ reviewsFetch → False).
  { intros pr fs cs rv Hpr Hfs Hcs Hrv.
    destruct Hfail as [H|[H|[H|H]]].
    - by pose proof (metadataFetch_one _ _ Hpr H).
    - by pose proof (filesFetch_one _ _ Hfs H).
    - by pose proof (commitsFetch_one _ _ Hcs H).
    - by pose proof (reviewsFetch_one _ _ Hrv H). }
  split; [apply analyzePR_rejects; by left|]. split.
  - intros [d|e'] Hout.
    + apply analyzePR_fulfils in Hout
        as (pr & fs & cs & rv & _ & Hpr & Hfs & Hcs & Hrv & _).
      destruct (Hno pr fs cs rv); done.
    + exists e'. split; [done|].
      apply analyzePR_rejects in Hout
        as [Htop|(pr & fs & cs & rv & _ & Hpr & Hfs & Hcs & Hrv & _)]; [done|].
      destruct (Hno pr fs cs rv); done.
  - intros d Hout.
    apply analyzePR_fulfils in Hout
      as (pr & fs & cs & rv & _ & Hpr & Hfs & Hcs & Hrv & _).
    destruct (Hno pr fs cs rv); done.
Qed.

End Aggregation.

Lemma analyzePR_top_level_failure_witness :
  Err (RequestError 429) ∈ analyzePR Sample.throttled "octo/cat" "7"
  ∧ ∀ d, Ok d ∉ analyzePR Sample.throttled "octo/cat" "7".
Proof.
  pose proof (analyzePR_top_level_failure Sample.throttled "octo/cat" "7"
                (RequestError 429)) as H.
  destruct H as (Hmay & _ & Hnone).
  - right. right. left. vm_compute. left.
  - split; [exact Hmay | exact Hnone].
Defined.

(** ** The content phase *)

Section ContentPhase.
Variables (octokit : Octokit) (repoString prNumber : string).
Variables (pr : PullRequest) (fs : list ChangedFile)
  (cs : list Commit) (rv : list Review).
Hypothesis fetched_metadata : Ok pr ∈ getPullRequest octokit repoString prNumber.
Hypothesis fetched_files : Ok fs ∈ getPullRequestFiles octokit repoString prNumber.
Hypothesis fetched_commits : Ok cs ∈ getPullRequestCommits octokit repoString prNumber.
Hypothesis fetched_reviews : Ok rv ∈ getPullRequestReviews octokit repoString prNumber.

(** Once the four fetches have fulfilled, a failure of the aggregation is
    a failure of a content request. *)
Lemma analyzePR_rejects_in_content_phase e :
  Err e ∈ analyzePR octokit repoString prNumber ↔
  ∃ f ref, f ∈ fs ∧ ref ∈ [sha (base pr); sha (head pr)]
           ∧ Err e ∈ getFileContent octokit repoString (filename f) ref.
Proof.
  rewrite analyzePR_rejects. split.
  - intros [[H|[H|[H|H]]]|(pr' & fs' & cs' & rv' & f & Hpr & Hfs & _ & _ & Hf & He)].
    + by pose proof (metadataFetch_one _ _ _ _ _ fetched_metadata H).
    + by pose proof (filesFetch_one _ _ _ _ _ fetched_files H).
    + by pose proof (commitsFetch_one _ _ _ _ _ fetched_commits H).
    + by pose proof (reviewsFetch_one _ _ _ _ _ fetched_reviews H).
    + assert (pr' = pr) as ->
        by (pose proof (metadataFetch_one _ _ _ _ _ fetched_metadata Hpr); congruence).
      assert (fs' = fs) as ->
        by (pose proof (filesFetch_one _ _ _ _ _ fetched_files Hfs); congruence).
      apply fetchContents_rejects in He as [He|He].
      * exists f, (sha (base pr)). split_and!; [done | by left | done].
      * exists f, (sha (head pr)). split_and!; [done | by right; left | done].
  - intros (f & ref & Hf & Href & He). right. exists pr, fs, cs, rv, f.
    split_and!; try done. apply fetchContents_rejects.
    apply elem_of_cons in Href as [->| ->%list_elem_of_singleton]; [by left | by right].
Qed.

(** C2, as the code has it. When the four top-level fetches have
    fulfilled and the content request of a changed file, at the base or at
    the head reference, fails with a provider error whose status is not
    404, the aggregation fails: it may fail with that error, every way it
    settles is a failure, and the failure is the provider error of such a
    content request itself; no record with part of the contents is
    returned. *)
Theorem analyzePR_content_failure (r : RepoRef) (f : ChangedFile)
    (ref : string) (e : exn) :
  parseRepoString repoString = Ok r →
  f ∈ fs →
  ref ∈ [sha (base pr); sha (head pr)] →
  repos_getContent octokit (owner r) (repo r) (filename f) ref = Err e →
  error_status e ≠ Some 404 →
  Err e ∈ analyzePR octokit repoString prNumber
  ∧ (∀ out, out ∈ analyzePR octokit repoString prNumber →
       ∃ e' f' ref',
         out = Err e' ∧ f' ∈ fs ∧ ref' ∈ [sha (base pr); sha (head pr)]
         ∧ repos_getContent octokit (owner r) (repo r) (filename f') ref' = Err e'
         ∧ error_status e' ≠ Some 404)
  ∧ (∀ d, Ok d ∉ analyzePR octokit repoString prNumber).
Proof.
  intros Hparse Hf Href Hget Hst.
  assert (Hrej : Err e ∈ getFileContent octokit repoString (filename f) ref).
  { apply getFileContent_rejects. right. by exists r. }
  assert (Hnone : ∀ d, Ok d ∉ analyzePR octokit repoString prNumber).
  { intros d (pr' & fs' & cs' & rv' & fcs & Hpr & Hfs & _ & _ & Hfcs & _)%analyzePR_fulfils.
    assert (pr' = pr) as ->
      by (pose proof (metadataFetch_one _ _ _ _ _ fetched_metadata Hpr); congruence).
    assert (fs' = fs) as ->
      by (pose proof (filesFetch_one _ _ _ _ _ fetched_files Hfs); congruence).
    apply list_elem_of_lookup in Hf as [i Hi].
    destruct (Forall2_lookup_l _ _ _ _ _ Hfcs Hi) as (fc & _ & Hfc).
    apply fetchContents_fulfils in Hfc as (b & h & Hb & Hh & _).
    apply elem_of_cons in Href as [->| ->%list_elem_of_singleton].
    - by pose proof (getFileContent_one _ _ _ _ _ _ Hb Hrej).
    - by pose proof (getFileContent_one _ _ _ _ _ _ Hh Hrej). }
  split; [|split; [|done]].
  - apply analyzePR_rejects_in_content_phase. by exists f, ref.
  - intros [d|e'] Hout; [by destruct (Hnone d)|].
    apply analyzePR_rejects_in_content_phase in Hout as (f' & ref' & Hf' & Href' & He').
    apply getFileContent_rejects in He' as [?|(r' & Hr' & ? & ?)]; [congruence|].
    assert (r' = r) as -> by congruence. by exists e', f', ref'.
Qed.

End ContentPhase.

Lemma analyzePR_content_failure_witness :
  Err (RequestError 401) ∈ analyzePR Sample.unauthorized "octo/cat" "7"
  ∧ ∀ d, Ok d ∉ analyzePR Sample.unauthorized "octo/cat" "7".
Proof.
  pose proof (analyzePR_content_failure Sample.unauthorized "octo/cat" "7"
                Sample.pr [Sample.a_txt] Sample.commitList Sample.reviewList) as H.
  destruct (H ltac:(vm_compute; left) ltac:(vm_compute; left)
              ltac:(vm_compute; left) ltac:(vm_compute; left)
              {| owner := "octo"; repo := "cat" |} Sample.a_txt "h1"
              (RequestError 401)) as (Hmay & _ & Hnone).
  - reflexivity.
  - left.
  - right. left.
  - reflexivity.
  - done.
  - split; [exact Hmay | exact Hnone].
Defined.

(** C2, as stated, fails: with a credential that may not read [a.txt] at
    the head, the aggregation settles in one way, as the provider's error
    of status 401 itself; it does not fail with [ContentFetchFailed]
    carrying the file name and that cause. *)
Lemma analyzePR_failure_not_wrapped :
  Err (RequestError 401) ∈ getFileContent Sample.unauthorized "octo/cat" "a.txt" "h1"
  ∧ analyzePR Sample.unauthorized "octo/cat" "7" = [Err (RequestError 401)]
  ∧ Err (ContentFetchFailed "a.txt" (RequestError 401))
    ∉ analyzePR Sample.unauthorized "octo/cat" "7".
Proof.
  split; [vm_compute; left|]. split; [reflexivity|].
  intros Hin. vm_compute in Hin.
  apply list_elem_of_singleton in Hin. discriminate Hin.
Qed.

(** ** Derived metadata *)

Lemma foldl_add_total {A} (f : A → Z) (xs : list A) (start : Z) :
  foldl (λ sum x, sum + f x) start xs = start + total (f <$> xs).
Proof.
  revert start. induction xs as [|x xs IH]; intros start.
  - unfold total. simpl. lia.
  - rewrite fmap_cons. change (foldl ?g start (x :: xs)) with (foldl g (start + f x) xs).
    rewrite IH. change (total (f x :: ?l)) with (f x + total l). lia.
Qed.

Lemma sum_additions_total fs : sum_additions fs = total (additions <$> fs).
Proof. unfold sum_additions. rewrite foldl_add_total. lia. Qed.

Lemma sum_deletions_total fs : sum_deletions fs = total (deletions <$> fs).
Proof. unfold sum_deletions. rewrite foldl_add_total. lia. Qed.

Lemma foldl_Set_add_NoDup xs acc : NoDup acc → NoDup (foldl Set_add acc xs).
Proof.
  revert acc. induction xs as [|x xs IH]; intros acc Hacc; simpl; [done|].
  apply IH. unfold Set_add. case_bool_decide as Hx; [done|].
  apply NoDup_app. split_and!; [done| |apply NoDup_singleton].
  intros y Hy ->%list_elem_of_singleton. done.
Qed.

Lemma elem_of_foldl_Set_add xs acc x :
  x ∈ foldl Set_add acc xs ↔ x ∈ acc ∨ x ∈ xs.
Proof.
  revert acc. induction xs as [|y xs IH]; intros acc; simpl.
  - rewrite elem_of_nil. tauto.
  - rewrite IH, elem_of_cons. unfold Set_add. case_bool_decide as Hy.
    + split; [tauto|]. intros [?|[->|?]]; tauto.
    + rewrite elem_of_app, list_elem_of_singleton. tauto.
Qed.

(** [[...new Set(xs)]] holds the values of [xs], each once. *)
Lemma Set_of_NoDup xs : NoDup (Set_of xs).
Proof. apply foldl_Set_add_NoDup, NoDup_nil_2. Qed.

Lemma elem_of_Set_of xs x : x ∈ Set_of xs ↔ x ∈ xs.
Proof. unfold Set_of. rewrite elem_of_foldl_Set_add, elem_of_nil. tauto. Qed.

(** The files of a fulfilled content phase are the changed files, in
    order, each with its two contents. *)
Lemma fetched_contents_files octokit repoString pr fs fcs :
  Forall2 (λ f fc, Ok fc ∈ fetchContents octokit repoString pr f) fs fcs →
  file <$> fcs = fs.
Proof.
  induction 1 as [|f fc fs fcs Hfc _ IH]; [done|].
  apply fetchContents_fulfils in Hfc as (b & h & _ & _ & ->).
  by rewrite fmap_cons, IH.
Qed.

(** C5. For every record the aggregation fulfils with, the counts are the
    lengths of its file, commit and review lists, the totals are the sums
    of its files' additions and deletions, and the metadata prepared from
    it keeps these counts, lists the file names in order, and holds each
    reviewer handle exactly once; the handles alice, bob, alice give the
    two reviewers alice and bob. *)
Theorem analyzePR_derived_metadata (octokit : Octokit)
    (repoString prNumber : string) (d : PRData) :
  Ok d ∈ analyzePR octokit repoString prNumber →
  totalFiles (metadata d) = Z.of_nat (length (files d))
  ∧ totalCommits (metadata d) = Z.of_nat (length (commits d))
  ∧ totalReviews (metadata d) = Z.of_nat (length (reviews d))
  ∧ totalAdditions (metadata d)
    = total ((λ f : FileChange, additions f) <$> files d)
  ∧ totalDeletions (metadata d)
    = total ((λ f : FileChange, deletions f) <$> files d)
  ∧ counts (ai_metadata (prepareAIData d)) = metadata d
  ∧ changedFiles (ai_metadata (prepareAIData d))
    = (λ f : FileChange, filename f) <$> files d
  ∧ NoDup (reviewers (ai_metadata (prepareAIData d)))
  ∧ (∀ handle, handle ∈ reviewers (ai_metadata (prepareAIData d)) ↔
               ∃ r, r ∈ reviews d ∧ login (reviewer r) = handle)
  ∧ Set_of ["alice"; "bob"; "alice"] = ["alice"; "bob"].
Proof.
  intros (pr & fs & cs & rv & fcs & _ & _ & _ & _ & Hfcs & ->)%analyzePR_fulfils.
  apply fetched_contents_files in Hfcs as <-. simpl.
  split_and!; try done.
  - by rewrite length_fmap.
  - by rewrite sum_additions_total, <- list_fmap_compose.
  - by rewrite sum_deletions_total, <- list_fmap_compose.
  - apply Set_of_NoDup.
  - intros handle. rewrite elem_of_Set_of, list_elem_of_fmap.
    split; intros (r & ? & ?); by exists r.
Qed.

Lemma analyzePR_derived_metadata_witness :
  ∃ d, analyzePR Sample.octokit "octo/cat" "7" = [Ok d]
       ∧ totalFiles (metadata d) = Z.of_nat (length (files d))
       ∧ reviewers (ai_metadata (prepareAIData d)) = ["alice"; "bob"].
Proof.
  eexists. split; [reflexivity|].
  split; [|reflexivity].
  eapply (analyzePR_derived_metadata Sample.octokit "octo/cat" "7").
  vm_compute. left.
Defined.

(** ** filterFiles *)

Section Filter.
Context `{E : RegExpEngine}.

Lemma slice0_take {A} (xs : list A) (n : Z) :
  0 ≤ n → slice0 xs n = take (Z.to_nat n) xs.
Proof.
  intros Hn. unfold slice0. rewrite (proj2 (Z.ltb_ge n 0) Hn).
  destruct (Z.le_ge_cases n (Z.of_nat (length xs))) as [Hle|Hge].
  - by rewrite Z.min_l.
  - rewrite Z.min_r, Nat2Z.id by done.
    rewrite !take_ge; [done|lia|lia].
Qed.

Lemma filter_twice {A} (keep : A → bool) (xs : list A) :
  List.filter keep (List.filter keep xs) = List.filter keep xs.
Proof.
  induction xs as [|x xs IH]; simpl; [done|].
  destruct (keep x) eqn:Hx; simpl; [|done].
  by rewrite Hx, IH.
Qed.

Lemma exclude_nil files : exclude [] files = files.
Proof.
  unfold exclude. simpl.
  induction files as [|f files IH]; simpl; congruence.
Qed.

(** What [filterFiles] computes with a limit that is not negative: zero
    counts as no limit. *)
Lemma filterFiles_unfold files config :
  (∀ n, configured_maxFiles config = Some n → 0 ≤ n) →
  filterFiles files config =
  (patterns ← map_throwing RegExp_new (default [] (configured_excludePaths config));
   Ok (exclude patterns
         (match configured_maxFiles config with
          | Some n => if n =? 0 then files else take (Z.to_nat n) files
          | None => files
          end))).
Proof.
  intros Hlimit. unfold filterFiles.
  assert (Hcut : match configured_maxFiles config with
                 | Some n => if n =? 0 then files else slice0 files n
                 | None => files
                 end
                 = match configured_maxFiles config with
                   | Some n => if n =? 0 then files else take (Z.to_nat n) files
                   | None => files
                   end).
  { destruct (configured_maxFiles config) as [n|]; [|done].
    destruct (n =? 0); [done|]. apply slice0_take. by apply Hlimit. }
  rewrite Hcut. clear Hcut.
  destruct (configured_excludePaths config) as [[|p ps]|]; simpl;
    by rewrite ?exclude_nil.
Qed.

(** C6. With a limit that is unset or a positive integer and patterns
    that compile, [filterFiles] first keeps the first [maxFiles] files in
    order and then drops the files whose name matches an exclusion
    pattern. For a.txt, b.log, c.txt with a limit of 2 and the pattern
    excluding the names that end in .log, the result is a.txt alone;
    excluding before truncating would give a.txt and c.txt. *)
Theorem filterFiles_truncates_then_excludes (files : list FileChange)
    (config : Config) (patterns : list RegExp) :
  (∀ n, configured_maxFiles config = Some n → 1 ≤ n) →
  map_throwing RegExp_new (default [] (configured_excludePaths config))
  = Ok patterns →
  filterFiles files config
  = Ok (exclude patterns (truncate (configured_maxFiles config) files))
  ∧ filterFiles (E := Fragment.engine) Sample.fileList
      (Sample.config (Some 2) (Some [".*\.log$"]))
    = Ok [Sample.a_file]
  ∧ (compiled ← map_throwing Fragment.compile [".*\.log$"];
     Ok (truncate (Some 2) (exclude (E := Fragment.engine) compiled Sample.fileList)))
    = Ok [Sample.a_file; Sample.c_file].
Proof.
  intros Hlimit Hcompile. split; [|by split].
  rewrite filterFiles_unfold.
  - rewrite Hcompile. simpl. unfold truncate.
    destruct (configured_maxFiles config) as [n|] eqn:Hn; [|done].
    specialize (Hlimit n eq_refl).
    by rewrite (proj2 (Z.eqb_neq n 0)) by lia.
  - intros n Hn. specialize (Hlimit n Hn). lia.
Qed.

(** C8. With a limit that is not negative, filtering the result of
    [filterFiles] again with the same configuration changes nothing; a
    pattern that does not compile makes both the run and the repeated run
    throw the same error. *)
Theorem filterFiles_idempotent (files : list FileChange) (config : Config) :
  (∀ n, configured_maxFiles config = Some n → 0 ≤ n) →
  (once ← filterFiles files config; filterFiles once config)
  = filterFiles files config.
Proof.
  intros Hlimit. rewrite (filterFiles_unfold files) by done.
  destruct (map_throwing _ _) as [patterns|e] eqn:Hcompile; simpl; [|done].
  rewrite filterFiles_unfold, Hcompile by done. simpl. f_equal.
  set (cut := match configured_maxFiles config with
              | Some n => if n =? 0 then files else take (Z.to_nat n) files
              | None => files end).
  assert (Hsame : match configured_maxFiles config with
                  | Some n => if n =? 0 then exclude patterns cut
                              else take (Z.to_nat n) (exclude patterns cut)
                  | None => exclude patterns cut end
                  = exclude patterns cut).
  { destruct (configured_maxFiles config) as [n|] eqn:Hn; [|done].
    destruct (n =? 0) eqn:Hz; [done|].
    apply take_ge. unfold exclude.
    etrans; [apply List.filter_length_le|].
    subst cut. simpl. rewrite length_take. lia. }
  rewrite Hsame. apply filter_twice.
Qed.

End Filter.

Lemma filterFiles_truncates_then_excludes_witness :
  filterFiles (E := Fragment.engine) Sample.fileList
    (Sample.config (Some 1) (Some [".*\.log$"; "^docs/"]))
  = Ok [Sample.a_file].
Proof.
  destruct (filterFiles_truncates_then_excludes (E := Fragment.engine)
              Sample.fileList
              (Sample.config (Some 1) (Some [".*\.log$"; "^docs/"])) _
              ltac:(intros n [= <-]; lia) eq_refl) as [-> _].
  reflexivity.
Defined.

Lemma filterFiles_idempotent_witness :
  (once ← filterFiles (E := Fragment.engine) Sample.fileList
            (Sample.config (Some 2) (Some [".*\.log$"]));
   filterFiles (E := Fragment.engine) once
     (Sample.config (Some 2) (Some [".*\.log$"])))
  = Ok [Sample.a_file].
Proof.
  rewrite (filterFiles_idempotent (E := Fragment.engine)).
  - reflexivity.
  - intros n [= <-]. lia.
Defined.

(** A negative limit is outside the configurations the validation
    accepts; there [slice] counts from the back and each pass drops files
    again. *)
Remark filterFiles_negative_limit :
  filterFiles (E := Fragment.engine) Sample.fileList (Sample.config (Some (-1)) None)
  = Ok (take 2 Sample.fileList)
  ∧ filterFiles (E := Fragment.engine) (take 2 Sample.fileList)
      (Sample.config (Some (-1)) None)
    = Ok (take 1 Sample.fileList).
Proof. by split. Qed.

(** ** Filtering and the derived totals *)

(** Replacing the files of a record leaves its metadata as it was, and
    [prepareAIData] copies the counts from that metadata. *)
Lemma prepareAIData_after_set_files (d : PRData) (kept : list FileChange) :
  counts (ai_metadata (prepareAIData (set_files d kept))) = metadata d
  ∧ changedFiles (ai_metadata (prepareAIData (set_files d kept)))
    = (λ f : FileChange, filename f) <$> kept.
Proof. done. Qed.


(** The same through the report variant of [analyze], the one caller of
    [filterFiles]: the results it writes hold the one file a.txt and the
    totals of the three files. *)
Remark filtered_report_keeps_prefilter_totals :
  ∃ trace path results,
    analyze_report (E := Fragment.engine) (Sample.runtime Sample.octokit)
      "github" "octo/cat" "7" Sample.options = [(trace, Ok ())]
    ∧ WriteFile path (JSON_Results results) ∈ trace
    ∧ change_filename <$> changes results = ["a.txt"]
    ∧ changedFiles (ai_metadata results) = ["a.txt"]
    ∧ totalFiles (ai_metadata results) = 3
    ∧ totalAdditions (ai_metadata results) = 15
    ∧ total (change_additions <$> changes results) = 3
    ∧ totalDeletions (ai_metadata results) = 6
    ∧ total (change_deletions <$> changes results) = 1.
Proof.
  do 3 eexists. split; [vm_compute; reflexivity|].
  split; [do 3 right; left|].
  by repeat split.
Qed.

(** ** Content requests in flight *)

Lemma peak_from_ge trace k : k ≤ peak_from k trace.
Proof. destruct trace; simpl; lia. Qed.

Lemma peak_from_settled completion k :
  peak_from k (Settled <$> completion) = k.
Proof.
  revert k. induction completion as [|q completion IH]; intros k; [done|].
  rewrite fmap_cons.
  change (peak_from k (Settled q :: (Settled <$> completion)))
    with (Z.max k (peak_from (k - 1) (Settled <$> completion))).
  rewrite IH. lia.
Qed.

Lemma peak_from_issued requests rest k :
  peak_from k ((Issued <$> requests) ++ rest)
  = peak_from (k + Z.of_nat (length requests)) rest.
Proof.
  revert k. induction requests as [|q requests IH]; intros k.
  - simpl. f_equal. lia.
  - rewrite fmap_cons, length_cons, Nat2Z.inj_succ.
    change (peak_from k ((Issued q :: (Issued <$> requests)) ++ rest))
      with (Z.max k (peak_from (k + 1) ((Issued <$> requests) ++ rest))).
    rewrite IH.
    pose proof (peak_from_ge rest (k + 1 + Z.of_nat (length requests))).
    replace (k + Z.succ (Z.of_nat (length requests)))
      with (k + 1 + Z.of_nat (length requests)) by lia.
    lia.
Qed.

Lemma length_content_requests repoString pr fs r :
  parseRepoString repoString = Ok r →
  length (content_requests repoString pr fs) = (2 * length fs)%nat.
Proof.
  intros Hparse. unfold content_requests.
  induction fs as [|f fs IH]; [done|].
  rewrite bind_cons, length_app, IH.
  unfold fetchContents_requests, getFileContent_requests. rewrite Hparse.
  simpl. lia.
Qed.

(** A request of the content phase is what [getFileContent] hands to the
    client for that file and reference. *)
Lemma getFileContent_by_request octokit repoString path ref r :
  parseRepoString repoString = Ok r →
  getFileContent_requests repoString path ref
  = [ {| req_owner := owner r; req_repo := repo r;
         req_path := path; req_ref := ref |} ]
  ∧ getFileContent octokit repoString path ref
    = [ match repos_getContent octokit (owner r) (repo r) path ref with
        | Ok content => Ok (Some (Buffer_decode octokit content))
        | Err error =>
            if bool_decide (error_status error = Some 404)
            then Ok None else Err error
        end ].
Proof.
  intros Hparse. unfold getFileContent_requests.
  by rewrite getFileContent_settles, Hparse.
Qed.

(** C9, as the code has it. The content phase has no cap: with a
    well-formed repository string it issues the two content requests of
    every changed file before any response is handled, so the requests in
    flight peak at twice the number of files, in whatever order the
    responses arrive; a bound N holds exactly when twice the number of
    files is at most N. *)
Theorem content_phase_peak (repoString : string) (pr : PullRequest)
    (fs : list ChangedFile) (completion : list ContentRequest) (r : RepoRef) :
  parseRepoString repoString = Ok r →
  peak (content_phase repoString pr fs completion) = 2 * Z.of_nat (length fs)
  ∧ ∀ N, peak (content_phase repoString pr fs completion) ≤ N
         ↔ 2 * Z.of_nat (length fs) ≤ N.
Proof.
  intros Hparse.
  assert (Hpeak : peak (content_phase repoString pr fs completion)
                  = 2 * Z.of_nat (length fs)).
  { unfold peak, content_phase.
    rewrite peak_from_issued, peak_from_settled.
    rewrite (length_content_requests _ _ _ _ Hparse). lia. }
  split; [done|]. intros N. by rewrite Hpeak.
Qed.

Lemma content_phase_peak_witness :
  peak (content_phase "octo/cat" Sample.pr Sample.changedFileList
          (content_requests "octo/cat" Sample.pr Sample.changedFileList)) = 6.
Proof.
  apply (content_phase_peak "octo/cat" Sample.pr Sample.changedFileList _
           {| owner := "octo"; repo := "cat" |}).
  reflexivity.
Defined.

(** C9, as stated, fails: under a cap of 2 the three changed files of the
    sample put six content requests in flight. *)
Lemma content_phase_exceeds_cap :
  ¬ (peak (content_phase "octo/cat" Sample.pr Sample.changedFileList
             (content_requests "octo/cat" Sample.pr Sample.changedFileList))
     ≤ 2).
Proof. vm_compute. intros H. by apply H. Qed.

(** ** Command handlers *)

Section Runs.
Context {A B : Type}.

Lemma elem_of_andThen (m : run A) (k : A → run B) t r :
  (t, r) ∈ andThen m k ↔
  (∃ e, (t, Err e) ∈ m ∧ r = Err e)
  ∨ (∃ v seen later, (seen, Ok v) ∈ m ∧ (later, r) ∈ k v ∧ t = seen ++ later).
Proof.
  unfold andThen. rewrite list_elem_of_bind. split.
  - intros ([seen [v|e]] & Hin & Hm).
    + apply list_elem_of_fmap in Hin as ([later r'] & [= -> ->] & Hk).
      right. by exists v, seen, later.
    + apply list_elem_of_singleton in Hin as [= -> ->]. left. by exists e.
  - intros [(e & Hm & ->)|(v & seen & later & Hm & Hk & ->)].
    + exists (t, Err e). split; [by apply list_elem_of_singleton | done].
    + exists (seen, Ok v). split; [|done].
      apply list_elem_of_fmap. by exists (later, r).
Qed.

Lemma elem_of_try_catch (body : run A) (handler : exn → run A) t r :
  (t, r) ∈ try_catch body handler ↔
  (∃ v, (t, Ok v) ∈ body ∧ r = Ok v)
  ∨ (∃ e seen later,
       (seen, Err e) ∈ body ∧ (later, r) ∈ handler e ∧ t = seen ++ later).
Proof.
  unfold try_catch. rewrite list_elem_of_bind. split.
  - intros ([seen [v|e]] & Hin & Hm).
    + apply list_elem_of_singleton in Hin as [= -> ->]. left. by exists v.
    + apply list_elem_of_fmap in Hin as ([later r'] & [= -> ->] & Hk).
      right. by exists e, seen, later.
  - intros [(v & Hm & ->)|(e & seen & later & Hm & Hk & ->)].
    + exists (t, Ok v). split; [by apply list_elem_of_singleton | done].
    + exists (seen, Err e). split; [|done].
      apply list_elem_of_fmap. by exists (later, r).
Qed.

End Runs.

Section RunSteps.
Context {A B : Type}.

Lemma elem_of_perform_then (e : effect) (k : run B) t r :
  (t, r) ∈ andThen (perform e) (λ _, k) ↔ ∃ later, t = e :: later ∧ (later, r) ∈ k.
Proof.
  rewrite elem_of_andThen. unfold perform. split.
  - intros [(e' & [=]%list_elem_of_singleton & _)
           |(v & seen & later & [= -> _]%list_elem_of_singleton & Hk & ->)].
    by exists later.
  - intros (later & -> & Hk). right. exists (), [e], later.
    split_and!; [by apply list_elem_of_singleton | done | done].
Qed.

Lemma elem_of_lift_then (res : result A) (k : A → run B) t r :
  (t, r) ∈ andThen (lift res) k ↔
  (∃ v, res = Ok v ∧ (t, r) ∈ k v) ∨ (∃ e, res = Err e ∧ t = [] ∧ r = Err e).
Proof.
  rewrite elem_of_andThen. unfold lift. split.
  - intros [(e & [= -> <-]%list_elem_of_singleton & ->)
           |(v & seen & later & [= -> <-]%list_elem_of_singleton & Hk & ->)].
    + right. by exists e.
    + left. by exists v.
  - intros [(v & -> & Hk)|(e & -> & -> & ->)].
    + right. exists v, [], t. split_and!; [by apply list_elem_of_singleton | done | done].
    + left. exists e. split; [by apply list_elem_of_singleton | done].
Qed.

Lemma elem_of_awaiting_then (p : promise A) (k : A → run B) t r :
  (t, r) ∈ andThen (awaiting p) k ↔
  (∃ v, Ok v ∈ p ∧ (t, r) ∈ k v) ∨ (∃ e, Err e ∈ p ∧ t = [] ∧ r = Err e).
Proof.
  rewrite elem_of_andThen. unfold awaiting. split.
  - intros [(e & Hin & ->)|(v & seen & later & Hin & Hk & ->)].
    + apply list_elem_of_fmap in Hin as (x & [= -> <-] & Hp). right. by exists e.
    + apply list_elem_of_fmap in Hin as (x & [= -> <-] & Hp). left. by exists v.
  - intros [(v & Hp & Hk)|(e & Hp & -> & ->)].
    + right. exists v, [], t. split_and!; [|done|done].
      apply list_elem_of_fmap. by exists (Ok v).
    + left. exists e. split; [|done].
      apply list_elem_of_fmap. by exists (Err e).
Qed.

(** An effect that may fail, such as [await fs.mkdir(path)], followed by
    the rest of the handler. *)
Lemma elem_of_effect_then (e : effect) (res : result ()) (k : run B) t r :
  (t, r) ∈ andThen (andThen (perform e) (λ _, lift res)) (λ _, k) ↔
  (res = Ok () ∧ ∃ later, t = e :: later ∧ (later, r) ∈ k)
  ∨ (∃ err, res = Err err ∧ t = [e] ∧ r = Err err).
Proof.
  rewrite elem_of_andThen. destruct res as [[]|err].
  - change (andThen (perform e) (λ _, lift (Ok ()))) with [([e], Ok ())].
    split.
    + intros [(e' & [=]%list_elem_of_singleton & _)
             |(v & seen & later & [= -> _]%list_elem_of_singleton & Hk & ->)].
      left. split; [done|]. by exists later.
    + intros [(_ & later & -> & Hk)|(err & [=] & _)].
      right. exists (), [e], later.
      split_and!; [by apply list_elem_of_singleton | done | done].
  - change (andThen (perform e) (λ _, lift (Err err)))
      with [([e], Err err : result ())].
    split.
    + intros [(e' & [= -> ->]%list_elem_of_singleton & ->)
             |(v & seen & later & [=]%list_elem_of_singleton & _)].
      right. by exists err.
    + intros [([=] & _)|(err' & [= <-] & -> & ->)].
      left. exists err. split; [by apply list_elem_of_singleton | done].
Qed.

End RunSteps.

Lemma written_app t1 t2 : written (t1 ++ t2) = written t1 ++ written t2.
Proof. unfold written. apply omap_app. Qed.

Lemma written_cons_other e t :
  (∀ path doc, e ≠ WriteFile path doc) → written (e :: t) = written t.
Proof. intros He. destruct e; try done. by destruct (He path content). Qed.




(** The sample client aggregates to the sample record. *)
Lemma analyzePR_sample :
  analyzePR Sample.octokit "octo/cat" "7" = [Ok Sample.prData].
Proof. reflexivity. Qed.

Section Exports.
Context `{E : RegExpEngine}.
Variables (rt : Runtime) (provider repoString prNumber : string)
  (options : Options).


End Exports.


(** The first declaration, the report variant, behaves differently on the
    sample: it writes the results and the markdown report. *)
Remark analyze_report_differs :
  written <$> (fst <$> analyze_report (E := Fragment.engine)
                 (Sample.runtime Sample.octokit) "github" "octo/cat" "7"
                 Sample.options)
  ≠ written <$> (fst <$> analyze_prompt (Sample.runtime Sample.octokit)
                   "github" "octo/cat" "7" Sample.options).
Proof. vm_compute. discriminate. Qed.

(** * Further properties *)

(** ** filterFiles: the shape of the result *)

Section FilterShape.
Context `{E : RegExpEngine}.

(** [filterFiles] for any limit. *)
Lemma filterFiles_cases files config :
  filterFiles files config =
  (patterns ← map_throwing RegExp_new (default [] (configured_excludePaths config));
   Ok (exclude patterns
         (match configured_maxFiles config with
          | Some n => if n =? 0 then files else slice0 files n
          | None => files
          end))).
Proof.
  unfold filterFiles.
  destruct (configured_excludePaths config) as [[|p ps]|]; simpl;
    by rewrite ?exclude_nil.
Qed.

Lemma slice0_sublist {A} (xs : list A) n : slice0 xs n `sublist_of` xs.
Proof. unfold slice0. apply sublist_take. Qed.

Lemma slice0_length {A} (xs : list A) n :
  0 ≤ n → (length (slice0 xs n) ≤ Z.to_nat n)%nat.
Proof. intros Hn. rewrite slice0_take by done. rewrite length_take. lia. Qed.

Lemma exclude_sublist patterns files : exclude patterns files `sublist_of` files.
Proof.
  unfold exclude. induction files as [|f files IH]; simpl; [constructor|].
  destruct (negb _); by constructor.
Qed.

Lemma elem_of_exclude patterns files (f : FileChange) :
  f ∈ exclude patterns files ↔
  f ∈ files ∧ ∀ r, r ∈ patterns → RegExp_test r (filename f) = false.
Proof.
  unfold exclude. rewrite list_elem_of_In, List.filter_In, <- list_elem_of_In.
  rewrite negb_true_iff. split; intros [Hf Hr]; (split; [done|]).
  - intros r Hin. destruct (RegExp_test r (filename f)) eqn:Htest; [|done].
    assert (existsb (λ pattern, RegExp_test pattern (filename f)) patterns = true)
      as Hex; [|congruence].
    apply List.existsb_exists. exists r. by rewrite <- list_elem_of_In.
  - apply not_true_is_false. intros (r & Hin & Htest)%List.existsb_exists.
    apply list_elem_of_In in Hin. rewrite (Hr r Hin) in Htest. done.
Qed.

Lemma map_throwing_Ok {A B} (f : A → result B) xs ys :
  map_throwing f xs = Ok ys ↔ Forall2 (λ x y, f x = Ok y) xs ys.
Proof.
  revert ys. induction xs as [|x xs IH]; intros ys; simpl.
  - split; [intros [= <-]; constructor | by inversion 1].
  - destruct (f x) as [y|e] eqn:Hx.
    + destruct (map_throwing f xs) as [zs|e].
      * split.
        -- intros [= <-]. constructor; [done | by apply IH].
        -- inversion 1 as [|? y' ? zs' Hy Hzs]; subst.
           apply IH in Hzs. congruence.
      * split; [done|]. inversion 1 as [|? y' ? zs' Hy Hzs]; subst.
        by apply IH in Hzs.
    + split; [done|]. inversion 1; congruence.
Qed.


(** X1. Whatever the limit, a result of [filterFiles] is the input with
    some files left out: no file is added, repeated or moved. With a
    positive limit it holds at most that many files, and none of its file
    names is matched by a configured pattern. *)
Theorem filterFiles_result_shape (files kept : list FileChange)
    (config : Config) :
  filterFiles files config = Ok kept →
  kept `sublist_of` files
  ∧ (∀ n, configured_maxFiles config = Some n → 1 ≤ n →
          (length kept ≤ Z.to_nat n)%nat)
  ∧ (∀ (f : FileChange) ps p r,
       f ∈ kept → configured_excludePaths config = Some ps →
                 p ∈ ps → RegExp_new p = Ok r →
                 RegExp_test r (filename f) = false).
Proof.
  rewrite filterFiles_cases.
  destruct (map_throwing _ _) as [patterns|e] eqn:Hcompile; [|done].
  simpl. intros [= <-]. split_and!.
  - etrans; [apply exclude_sublist|].
    destruct (configured_maxFiles config) as [n|]; [|done].
    destruct (n =? 0); [done | apply slice0_sublist].
  - intros n Hn Hpos. rewrite Hn.
    rewrite (proj2 (Z.eqb_neq n 0)) by lia.
    etrans; [apply sublist_length, exclude_sublist|].
    apply slice0_length. lia.
  - intros f ps p r Hf Hps Hp Hr. rewrite Hps in Hcompile. simpl in Hcompile.
    apply elem_of_exclude in Hf as [_ Hf]. apply Hf.
    apply map_throwing_Ok in Hcompile.
    apply list_elem_of_lookup in Hp as [i Hi].
    destruct (Forall2_lookup_l _ _ _ _ _ Hcompile Hi) as (r' & Hr' & Heq).
    rewrite Hr in Heq. injection Heq as <-.
    apply list_elem_of_lookup. by exists i.
Qed.


(** X3. The limit is used only when it is truthy and then handed to
    [slice]: a limit of zero keeps every file, as no limit does, and a
    negative limit -k drops the last k files instead of keeping a first
    few. *)
Theorem filterFiles_limit_edges (files : list FileChange) (config : Config)
    (n : Z) :
  configured_maxFiles config = Some n →
  configured_excludePaths config = None →
  (n = 0 → filterFiles files config = Ok files)
  ∧ (n < 0 →
     filterFiles files config
     = Ok (take (length files - Z.to_nat (- n)) files)).
Proof.
  intros Hn Hps. rewrite filterFiles_cases, Hn, Hps. simpl.
  rewrite exclude_nil. split.
  - by intros ->.
  - intros Hneg. rewrite (proj2 (Z.eqb_neq n 0)) by lia.
    unfold slice0. rewrite (proj2 (Z.ltb_lt n 0)) by done.
    do 2 f_equal. lia.
Qed.

End FilterShape.

Lemma filterFiles_result_shape_witness :
  [Sample.a_file] `sublist_of` Sample.fileList.
Proof.
  eapply (filterFiles_result_shape (E := Fragment.engine) Sample.fileList
            [Sample.a_file] (Sample.config (Some 2) (Some [".*\.log$"]))).
  reflexivity.
Defined.

Lemma filterFiles_limit_edges_witness :
  filterFiles (E := Fragment.engine) Sample.fileList
    (Sample.config (Some (-2)) None)
  = Ok [Sample.a_file].
Proof.
  apply (filterFiles_limit_edges (E := Fragment.engine) Sample.fileList
           (Sample.config (Some (-2)) None) (-2)); [reflexivity | reflexivity | lia].
Defined.

(** ** parseRepoString: which strings parse *)

Lemma split_pieces_no_sep sep s :
  Forall (λ piece, contains_char sep piece = false) (split sep s).
Proof.
  induction s as [|c rest IH]; simpl; [by repeat constructor|].
  destruct (Ascii.eqb c sep) eqn:Hc; [by constructor|].
  pose proof (split_nonempty sep rest) as Hne.
  destruct (split sep rest) as [|piece pieces]; [done|].
  apply Forall_cons in IH as [Hpiece Hpieces].
  constructor; [|done]. simpl. by rewrite Hc.
Qed.

(** Joining the pieces with the separator gives the string back. *)
Lemma split_join sep s : join (String sep "") (split sep s) = s.
Proof.
  unfold join. induction s as [|c rest IH]; [done|].
  simpl. destruct (Ascii.eqb c sep) eqn:Hc.
  - apply Ascii.eqb_eq in Hc as ->.
    pose proof (split_nonempty sep rest) as Hne.
    destruct (split sep rest) as [|piece pieces]; [done|].
    simpl in *. by rewrite IH.
  - pose proof (split_nonempty sep rest) as Hne.
    destruct (split sep rest) as [|piece pieces]; [done|].
    destruct pieces as [|piece' pieces]; simpl in *; by rewrite <- IH.
Qed.

(** X4. [parseRepoString] returns an owner and a repository exactly for
    the strings that start with a non-empty owner, a slash and a non-empty
    repository, neither containing a slash, and either end there or go on
    with a slash and any text, which is dropped. *)
Theorem parseRepoString_Ok_iff (s o r : string) :
  parseRepoString s = Ok {| owner := o; repo := r |} ↔
  o ≠ "" ∧ r ≠ ""
  ∧ contains_char slash o = false ∧ contains_char slash r = false
  ∧ (s = o +:+ "/" +:+ r ∨ ∃ rest, s = o +:+ "/" +:+ r +:+ "/" +:+ rest).
Proof.
  split.
  - unfold parseRepoString.
    pose proof (split_pieces_no_sep slash s) as Hpieces.
    pose proof (split_join slash s) as Hjoin.
    destruct (split slash s) as [|p [|q rest]]; simpl;
      [done | by rewrite orb_true_r |].
    destruct p as [|c p]; [done|]. destruct q as [|c' q]; [done|].
    simpl. intros [= <- <-].
    apply Forall_cons in Hpieces as [Hp Hpieces].
    apply Forall_cons in Hpieces as [Hq _].
    split_and!; try done.
    unfold join in Hjoin. destruct rest as [|t ts].
    + left. by rewrite <- Hjoin.
    + right. exists (String.concat "/" (t :: ts)). by rewrite <- Hjoin.
  - intros (Ho & Hr & Hno & Hnr & Hs).
    assert (Hpieces : ∃ rest, split slash s = o :: r :: rest).
    { destruct Hs as [->|[rest ->]].
      - exists []. change ("/" +:+ r) with (String slash r).
        by rewrite (split_app_sep _ _ _ Hno), (split_no_sep _ _ Hnr).
      - exists (split slash rest).
        change ("/" +:+ r +:+ "/" +:+ rest) with (String slash (r +:+ String slash rest)).
        by rewrite (split_app_sep _ _ _ Hno), (split_app_sep _ _ _ Hnr). }
    destruct Hpieces as [rest Hpieces].
    unfold parseRepoString. rewrite Hpieces. simpl.
    by destruct o, r.
Qed.

(** ** analyzePR: what the record holds and when there is one *)

Section Record.
Variables (octokit : Octokit) (repoString prNumber : string).

(** X5. With a repository string that does not parse, the aggregation
    fails with the invalid-format error and in no other way, whatever the
    provider would answer; and the content phase hands no request to the
    client. *)
Theorem analyzePR_invalid_repoString :
  is_ok (parseRepoString repoString) = false →
  (∀ out, out ∈ analyzePR octokit repoString prNumber
          ↔ out = Err InvalidReference)
  ∧ ∀ pr fs, content_requests repoString pr fs = [].
Proof.
  intros Hparse.
  destruct (parseRepoString repoString) as [r|e] eqn:Hrs; [done|].
  apply parseRepoString_error in Hrs as He. subst e.
  split.
  - intros out. split.
    + intros Hout. destruct out as [d|e].
      * apply analyzePR_fulfils in Hout as (pr & _ & _ & _ & _ & Hpr & _).
        rewrite getPullRequest_settles, Hrs in Hpr.
        by apply list_elem_of_singleton in Hpr.
      * apply analyzePR_rejects in Hout
          as [Htop|(pr & _ & _ & _ & _ & Hpr & _)].
        -- rewrite getPullRequest_settles, getPullRequestFiles_settles,
             getPullRequestCommits_settles, getPullRequestReviews_settles,
             Hrs in Htop.
           simpl in Htop. rewrite !list_elem_of_singleton in Htop.
           destruct Htop as [H|[H|[H|H]]]; by injection H as ->.
        -- rewrite getPullRequest_settles, Hrs in Hpr.
           by apply list_elem_of_singleton in Hpr.
    + intros ->. apply analyzePR_rejects. left. left.
      rewrite getPullRequest_settles, Hrs. by apply list_elem_of_singleton.
  - intros pr fs. unfold content_requests.
    induction fs as [|f fs IH]; [done|].
    rewrite bind_cons, IH.
    unfold fetchContents_requests, getFileContent_requests. by rewrite Hrs.
Qed.

(** A fulfilled [getFileContent] is the decoded answer, or [null] for an
    answer of status 404. *)
Lemma getFileContent_fulfils path ref v :
  Ok v ∈ getFileContent octokit repoString path ref ↔
  ∃ r, parseRepoString repoString = Ok r
       ∧ match repos_getContent octokit (owner r) (repo r) path ref with
         | Ok content => v = Some (Buffer_decode octokit content)
         | Err e => error_status e = Some 404 ∧ v = None
         end.
Proof.
  rewrite getFileContent_settles, list_elem_of_singleton.
  destruct (parseRepoString repoString) as [r|e0]; simpl.
  - destruct (repos_getContent _ _ _ _ _) as [content|e1] eqn:Hget.
    + split.
      * intros [= ->]. exists r. by rewrite Hget.
      * intros (r' & [= <-] & Hv). rewrite Hget in Hv. by subst.
    + case_bool_decide as Hst; split.
      * intros [= ->]. exists r. by rewrite Hget.
      * intros (r' & [= <-] & Hv). rewrite Hget in Hv. by destruct Hv as [_ ->].
      * done.
      * intros (r' & [= <-] & Hv). rewrite Hget in Hv. by destruct Hv.
  - split; [done|]. by intros (r' & ? & _).
Qed.

(** X6. A record that the aggregation fulfils with holds what the
    provider answered and nothing else: its pull request, commits and
    reviews are the provider's, its files are the provider's changed files
    in the same order, and each content is the decoded answer for that
    file at the base (head) commit, or [null] where the provider answered
    with status 404. *)
Theorem analyzePR_record_contents (d : PRData) :
  Ok d ∈ analyzePR octokit repoString prNumber →
  ∃ r,
    parseRepoString repoString = Ok r
    ∧ pulls_get octokit (owner r) (repo r) prNumber = Ok (pullRequest d)
    ∧ pulls_listFiles octokit (owner r) (repo r) prNumber = Ok (file <$> files d)
    ∧ pulls_listCommits octokit (owner r) (repo r) prNumber = Ok (commits d)
    ∧ pulls_listReviews octokit (owner r) (repo r) prNumber = Ok (reviews d)
    ∧ ∀ fc : FileChange, fc ∈ files d →
        match repos_getContent octokit (owner r) (repo r) (filename fc)
                (sha (base (pullRequest d))) with
        | Ok content => baseContent fc = Some (Buffer_decode octokit content)
        | Err e => error_status e = Some 404 ∧ baseContent fc = None
        end
        ∧ match repos_getContent octokit (owner r) (repo r) (filename fc)
                  (sha (head (pullRequest d))) with
          | Ok content => headContent fc = Some (Buffer_decode octokit content)
          | Err e => error_status e = Some 404 ∧ headContent fc = None
          end.
Proof.
  intros (pr & fs & cs & rv & fcs & Hpr & Hfs & Hcs & Hrv & Hfcs & ->)%analyzePR_fulfils.
  rewrite getPullRequest_settles in Hpr.
  rewrite getPullRequestFiles_settles in Hfs.
  rewrite getPullRequestCommits_settles in Hcs.
  rewrite getPullRequestReviews_settles in Hrv.
  apply list_elem_of_singleton in Hpr, Hfs, Hcs, Hrv.
  destruct (parseRepoString repoString) as [r|e] eqn:Hrs; [|done].
  simpl in *. exists r. split_and!; try done.
  - by rewrite (fetched_contents_files _ _ _ _ _ Hfcs).
  - intros fc Hfc. apply list_elem_of_lookup in Hfc as [i Hi].
    destruct (Forall2_lookup_r _ _ _ _ _ Hfcs Hi) as (f & _ & Hf).
    apply fetchContents_fulfils in Hf as (b & h & Hb & Hh & ->). simpl.
    apply getFileContent_fulfils in Hb as (r1 & Hr1 & Hb).
    apply getFileContent_fulfils in Hh as (r2 & Hr2 & Hh).
    assert (r1 = r) as -> by congruence.
    assert (r2 = r) as -> by congruence. done.
Qed.

(** X7. The aggregation can fulfil exactly when its four getters fulfil
    and [getFileContent] fulfils for every changed file at the base and at
    the head commit. A record is there only for a repository string that
    parses, with the four endpoints answering and no content request
    failing with anything but status 404. When the aggregation can fulfil
    it settles in no other way: no order of completion turns it into a
    failure or another record. *)
Theorem analyzePR_fulfils_iff :
  ((∃ d, Ok d ∈ analyzePR octokit repoString prNumber) ↔
   ∃ pr fs cs rv,
     Ok pr ∈ getPullRequest octokit repoString prNumber
     ∧ Ok fs ∈ getPullRequestFiles octokit repoString prNumber
     ∧ Ok cs ∈ getPullRequestCommits octokit repoString prNumber
     ∧ Ok rv ∈ getPullRequestReviews octokit repoString prNumber
     ∧ ∀ (f : ChangedFile) ref,
         f ∈ fs → ref ∈ [sha (base pr); sha (head pr)] →
         ∃ v, Ok v ∈ getFileContent octokit repoString (filename f) ref)
  ∧ ((∃ d, Ok d ∈ analyzePR octokit repoString prNumber) →
     ∃ r pr fs cs rv,
       parseRepoString repoString = Ok r
       ∧ pulls_get octokit (owner r) (repo r) prNumber = Ok pr
       ∧ pulls_listFiles octokit (owner r) (repo r) prNumber = Ok fs
       ∧ pulls_listCommits octokit (owner r) (repo r) prNumber = Ok cs
       ∧ pulls_listReviews octokit (owner r) (repo r) prNumber = Ok rv
       ∧ ∀ (f : ChangedFile) ref,
           f ∈ fs → ref ∈ [sha (base pr); sha (head pr)] →
           ∀ e, repos_getContent octokit (owner r) (repo r) (filename f) ref = Err e →
                error_status e = Some 404)
  ∧ ∀ d out, Ok d ∈ analyzePR octokit repoString prNumber →
             out ∈ analyzePR octokit repoString prNumber → out = Ok d.
Proof.
  split; [split|split].
  - intros [d (pr & fs & cs & rv & fcs & Hpr & Hfs & Hcs & Hrv & Hfcs & _)%analyzePR_fulfils].
    exists pr, fs, cs, rv. split_and!; try done.
    intros f ref Hf Href.
    apply list_elem_of_lookup in Hf as [i Hi].
    destruct (Forall2_lookup_l _ _ _ _ _ Hfcs Hi) as (fc & _ & Hfc).
    apply fetchContents_fulfils in Hfc as (b & h & Hb & Hh & _).
    apply elem_of_cons in Href as [->| ->%list_elem_of_singleton];
      by eexists.
  - intros (pr & fs & cs & rv & Hpr & Hfs & Hcs & Hrv & Hcontents).
    destruct (content_phase_settles octokit repoString pr fs)
      as [[fcs Hfcs]|(f & e & Hf & He)].
    + exists (assembled pr fs cs rv fcs). apply analyzePR_fulfils.
      by exists pr, fs, cs, rv, fcs.
    + exfalso. apply fetchContents_rejects in He as [He|He].
      * destruct (Hcontents f (sha (base pr)) Hf ltac:(by left)) as [v Hv].
        by pose proof (getFileContent_one _ _ _ _ _ _ Hv He).
      * destruct (Hcontents f (sha (head pr)) Hf ltac:(by right; left)) as [v Hv].
        by pose proof (getFileContent_one _ _ _ _ _ _ Hv He).
  - intros [d (pr & fs & cs & rv & fcs & Hpr & Hfs & Hcs & Hrv & Hfcs & _)%analyzePR_fulfils].
    rewrite getPullRequest_settles in Hpr.
    rewrite getPullRequestFiles_settles in Hfs.
    rewrite getPullRequestCommits_settles in Hcs.
    rewrite getPullRequestReviews_settles in Hrv.
    apply list_elem_of_singleton in Hpr, Hfs, Hcs, Hrv.
    destruct (parseRepoString repoString) as [r|e0] eqn:Hrs; [|done].
    simpl in *. exists r, pr, fs, cs, rv. split_and!; try done.
    intros f ref Hf Href e He.
    apply list_elem_of_lookup in Hf as [i Hi].
    destruct (Forall2_lookup_l _ _ _ _ _ Hfcs Hi) as (fc & _ & Hfc).
    apply fetchContents_fulfils in Hfc as (b & h & Hb & Hh & _).
    apply getFileContent_fulfils in Hb as (r1 & Hr1 & Hb).
    apply getFileContent_fulfils in Hh as (r2 & Hr2 & Hh).
    assert (r1 = r) as -> by congruence.
    assert (r2 = r) as -> by congruence.
    apply elem_of_cons in Href as [->| ->%list_elem_of_singleton].
    + rewrite He in Hb. by destruct Hb.
    + rewrite He in Hh. by destruct Hh.
  - intros d out Hd Hout.
    apply analyzePR_fulfils in Hd
      as (pr & fs & cs & rv & fcs & Hpr & Hfs & Hcs & Hrv & Hfcs & ->).
    assert (Hsame : ∀ fcs', Forall2 (λ f fc, Ok fc ∈ fetchContents octokit repoString pr f) fs fcs' → fcs' = fcs).
    { clear -Hfcs. intros fcs' Hfcs'. revert fcs' Hfcs'.
      induction Hfcs as [|f fc fs fcs Hfc _ IH]; intros fcs' Hfcs'.
      - by inversion Hfcs'.
      - inversion Hfcs' as [|? fc' ? fcs'' Hfc' Hrest]; subst.
        f_equal; [|by apply IH].
        apply fetchContents_fulfils in Hfc as (b & h & Hb & Hh & ->).
        apply fetchContents_fulfils in Hfc' as (b' & h' & Hb' & Hh' & ->).
        pose proof (getFileContent_one _ _ _ _ _ _ Hb Hb').
        pose proof (getFileContent_one _ _ _ _ _ _ Hh Hh'). congruence. }
    destruct out as [d'|e].
    + apply analyzePR_fulfils in Hout
        as (pr' & fs' & cs' & rv' & fcs' & Hpr' & Hfs' & Hcs' & Hrv' & Hfcs' & ->).
      pose proof (metadataFetch_one _ _ _ _ _ Hpr Hpr').
      pose proof (filesFetch_one _ _ _ _ _ Hfs Hfs').
      pose proof (commitsFetch_one _ _ _ _ _ Hcs Hcs').
      pose proof (reviewsFetch_one _ _ _ _ _ Hrv Hrv'). simplify_eq.
      by rewrite (Hsame _ Hfcs').
    + exfalso. apply analyzePR_rejects in Hout
        as [[H|[H|[H|H]]]|(pr' & fs' & cs' & rv' & f & Hpr' & Hfs' & _ & _ & Hf & He)].
      * by pose proof (metadataFetch_one _ _ _ _ _ Hpr H).
      * by pose proof (filesFetch_one _ _ _ _ _ Hfs H).
      * by pose proof (commitsFetch_one _ _ _ _ _ Hcs H).
      * by pose proof (reviewsFetch_one _ _ _ _ _ Hrv H).
      * pose proof (metadataFetch_one _ _ _ _ _ Hpr Hpr').
        pose proof (filesFetch_one _ _ _ _ _ Hfs Hfs'). simplify_eq.
        apply list_elem_of_lookup in Hf as [i Hi].
        destruct (Forall2_lookup_l _ _ _ _ _ Hfcs Hi) as (fc & _ & Hfc).
        apply fetchContents_fulfils in Hfc as (b & h & Hb & Hh & _).
        apply fetchContents_rejects in He as [He|He].
        -- by pose proof (getFileContent_one _ _ _ _ _ _ Hb He).
        -- by pose proof (getFileContent_one _ _ _ _ _ _ Hh He).
Qed.

End Record.

Lemma analyzePR_invalid_repoString_witness :
  Err InvalidReference ∈ analyzePR Sample.octokit "octo" "7"
  ∧ content_requests "octo" Sample.pr Sample.changedFileList = [].
Proof.
  destruct (analyzePR_invalid_repoString Sample.octokit "octo" "7" eq_refl)
    as [Honly Hnone].
  split; [by apply Honly | apply Hnone].
Defined.

Lemma analyzePR_record_contents_witness :
  ∃ r, parseRepoString "octo/cat" = Ok r
       ∧ pulls_listFiles Sample.octokit (owner r) (repo r) "7"
         = Ok (file <$> files Sample.prData).
Proof.
  destruct (analyzePR_record_contents Sample.octokit "octo/cat" "7" Sample.prData)
    as (r & Hrs & _ & Hfs & _).
  - rewrite analyzePR_sample. left.
  - by exists r.
Defined.

(** ** The analyze handlers: failures, exits and writes *)

Section OrdinaryRuns.
Context {A B : Type}.

Lemma ordinary_andThen (m : run A) (k : A → run B) :
  ordinary_run m → (∀ v, ordinary_run (k v)) → ordinary_run (andThen m k).
Proof.
  intros Hm Hk t r [(e & Hin & _)|(v & seen & later & Hin & Hlater & ->)]%elem_of_andThen.
  - by apply (Hm _ _ Hin).
  - apply Forall_app. split; [by apply (Hm _ _ Hin) | by apply (Hk _ _ _ Hlater)].
Qed.

Lemma ordinary_perform e : ordinary e = true → ordinary_run (perform e).
Proof.
  intros He t r [= -> _]%list_elem_of_singleton. by repeat constructor.
Qed.

Lemma ordinary_lift (res : result A) : ordinary_run (lift res).
Proof. intros t r [= -> _]%list_elem_of_singleton. constructor. Qed.

Lemma ordinary_pure (v : A) : ordinary_run (pure v).
Proof. intros t r [= -> _]%list_elem_of_singleton. constructor. Qed.

Lemma ordinary_awaiting (p : promise A) : ordinary_run (awaiting p).
Proof.
  intros t r (x & [= -> _] & _)%list_elem_of_fmap. constructor.
Qed.

(** A handler wrapped in the shared [catch] clause ends normally; what it
    did is a run of its body, followed, when the body threw, by the error
    report and the exit. *)
Lemma elem_of_caught (body : run ()) t r :
  (t, r) ∈ try_catch body report_failure →
  r = Ok ()
  ∧ ((t, Ok ()) ∈ body
     ∨ ∃ seen e,
         (seen, Err e) ∈ body
         ∧ t = seen ++ [ConsoleError "Error analyzing pull request:" e;
                        ProcessExit 1]).
Proof.
  intros [([] & Hin & ->)|(e & seen & later & Hin & Hlater & ->)]%elem_of_try_catch.
  - split; [done | by left].
  - unfold report_failure in Hlater.
    apply elem_of_perform_then in Hlater as (l1 & -> & Hlater).
    apply list_elem_of_singleton in Hlater as [= -> ->].
    split; [done|]. right. by exists seen, e.
Qed.

End OrdinaryRuns.

Ltac ordinary_steps :=
  repeat first
    [ progress cbv zeta
    | apply ordinary_perform; reflexivity
    | apply ordinary_lift
    | apply ordinary_pure
    | apply ordinary_awaiting
    | apply ordinary_andThen; [|intros ?] ].

Lemma ordinary_prompt_body rt repoString prNumber options :
  ordinary_run
    (perform (ConsoleLog "Starting pull request analysis...");'
     github ←' lift (initialize rt);
     perform (ConsoleLog "Fetching PR data...");'
     prData ←' awaiting (analyzePR github repoString prNumber);
     let prompt := generatePrompt prData in
     let timestamp := timestamp_of (Date_toISOString rt) in
     let outputDir := or_else (opt_output options) (process_cwd rt) in
     let promptPath :=
       path_join rt outputDir
         ("pr-" +:+ prNumber +:+ "-prompt-" +:+ timestamp +:+ ".txt") in
     mkdir rt outputDir;'
     writeFile rt promptPath (Text prompt);'
     let dataPath :=
       path_join rt outputDir
         ("pr-" +:+ prNumber +:+ "-data-" +:+ timestamp +:+ ".json") in
     writeFile rt dataPath (JSON_PRData prData);'
     perform (ConsoleLog (nl +:+ "Analysis preparation completed!"));'
     perform (ConsoleLog ("Files saved:" +:+ nl +:+ "- Prompt: " +:+ promptPath
                          +:+ nl +:+ "- Raw data: " +:+ dataPath))).
Proof. unfold mkdir, writeFile. ordinary_steps. Qed.

Lemma ordinary_saveResults rt results outputPath :
  ordinary_run (saveResults rt results outputPath).
Proof. unfold saveResults, mkdir, writeFile. ordinary_steps. Qed.

Lemma ordinary_report_body `{E : RegExpEngine} rt repoString prNumber options :
  ordinary_run
    (perform (ConsoleLog "Starting pull request analysis...");'
     config ←' lift (loadConfig rt (opt_config options));
     github ←' lift (initialize rt);
     perform (ConsoleLog "Fetching PR data...");'
     prData ←' awaiting (analyzePR github repoString prNumber);
     filtered ←' lift (filterFiles (files prData) config);
     let prData := set_files prData filtered in
     let aiData := prepareAIData prData in
     let results := {| data := aiData; findings := pendingAnalysis |} in
     paths ←' saveResults rt results (opt_output options);
     perform (ConsoleLog (nl +:+ "Analysis completed successfully!"));'
     perform (ConsoleLog ("Results saved to:" +:+ nl +:+ "- JSON: " +:+ paths.1
                          +:+ nl +:+ "- Markdown: " +:+ paths.2))).
Proof.
  ordinary_steps. all: try apply ordinary_saveResults. all: ordinary_steps.
Qed.

Section Handlers.
Context `{E : RegExpEngine}.
Variables (rt : Runtime) (provider repoString prNumber : string)
  (options : Options).

(** X8. Neither declaration of [analyze] lets an error escape: every run
    of either handler ends normally, and it either performs no error
    report and no exit at all, or it ends with the report of the caught
    error followed by an exit with status 1, with neither before. *)
Theorem analyze_handlers_catch_everything (decl : declaration)
    (trace : list effect) (outcome : result ()) :
  decl ∈ analyze_declarations →
  (trace, outcome)
  ∈ declared_body decl rt provider repoString prNumber options →
  outcome = Ok ()
  ∧ ∃ before,
      Forall (λ e, ordinary e = true) before
      ∧ (trace = before
         ∨ ∃ e, trace = before ++ [ConsoleError "Error analyzing pull request:" e;
                                  ProcessExit 1]).
Proof.
  intros Hdecl Hrun.
  assert (Hbody : ∃ body : run (),
             ordinary_run body
             ∧ (trace, outcome) ∈ try_catch body report_failure).
  { unfold analyze_declarations in Hdecl.
    apply elem_of_cons in Hdecl as [->| ->%list_elem_of_singleton].
    - eexists. split; [apply (ordinary_report_body rt repoString prNumber options)|].
      exact Hrun.
    - eexists. split; [apply (ordinary_prompt_body rt repoString prNumber options)|].
      exact Hrun. }
  destruct Hbody as (body & Hordinary & Hin).
  apply elem_of_caught in Hin as [-> [Hin|(seen & e & Hin & ->)]].
  - split; [done|]. exists trace. split; [by apply (Hordinary _ _ Hin) | by left].
  - split; [done|]. exists seen. split; [by apply (Hordinary _ _ Hin)|].
    right. by exists e.
Qed.

(** X9. Without a usable token neither handler reaches the provider or
    the file system: when the configuration loads and its token is
    missing or empty, the only run of either handler logs the start,
    reports that the token is not configured and exits with status 1. *)
Theorem analyze_without_token (config config' : Config) (decl : declaration) :
  loadConfig rt None = Ok config →
  truthy_string (github config ≫= token) = false →
  loadConfig rt (opt_config options) = Ok config' →
  decl ∈ analyze_declarations →
  declared_body decl rt provider repoString prNumber options
  = [([ConsoleLog "Starting pull request analysis...";
       ConsoleError "Error analyzing pull request:"
         (Error "GitHub token not configured. Run: pullmaster configure --github-token <token>");
       ProcessExit 1], Ok ())].
Proof.
  intros Hload Htoken Hload' Hdecl.
  assert (Hinit : initialize rt = Err (Error "GitHub token not configured. Run: pullmaster configure --github-token <token>")).
  { unfold initialize. rewrite Hload. simpl. by rewrite Htoken. }
  unfold analyze_declarations in Hdecl.
  apply elem_of_cons in Hdecl as [->| ->%list_elem_of_singleton]; simpl.
  - unfold analyze_report. by rewrite Hload', Hinit.
  - unfold analyze_prompt. by rewrite Hinit.
Qed.

End Handlers.

(** What [saveResults] writes: the results as JSON and then the markdown
    report of the same results; a run that returns has written both. *)
Lemma saveResults_written rt results outputPath t r :
  (t, r) ∈ saveResults rt results outputPath →
  (written t = [] ∧ is_ok r = false)
  ∨ (written t = [JSON_Results results] ∧ is_ok r = false)
  ∨ written t = [JSON_Results results; Text (generateMarkdownReport results)].
Proof.
  unfold saveResults. cbv zeta. unfold mkdir, writeFile. intros Hin.
  apply elem_of_effect_then in Hin as [(_ & l1 & -> & Hin)|(e & _ & -> & ->)];
    [|by left].
  apply elem_of_effect_then in Hin as [(_ & l2 & -> & Hin)|(e & _ & -> & ->)];
    [|by right; left].
  apply elem_of_effect_then in Hin as [(_ & l3 & -> & Hin)|(e & _ & -> & ->)];
    [|by right; right].
  apply list_elem_of_singleton in Hin as [= -> _]. by right; right.
Qed.

Section Report.
Context `{E : RegExpEngine}.
Variables (rt : Runtime) (provider repoString prNumber : string)
  (options : Options).

(** X10. The report variant writes the results and then the markdown
    report of the same results, and those results are prepared from the
    aggregated record with its files replaced by what [filterFiles] keeps
    under the loaded configuration. A run in which the configuration, the
    token, the aggregation or a pattern fails writes nothing. *)
Theorem analyze_report_written (trace : list effect) (outcome : result ()) :
  (trace, outcome) ∈ analyze_report rt provider repoString prNumber options →
  written trace = []
  ∨ ∃ config github d kept,
      loadConfig rt (opt_config options) = Ok config
      ∧ initialize rt = Ok github
      ∧ Ok d ∈ analyzePR github repoString prNumber
      ∧ filterFiles (files d) config = Ok kept
      ∧ let results := {| data := prepareAIData (set_files d kept);
                          findings := pendingAnalysis |} in
        written trace = [JSON_Results results]
        ∨ written trace = [JSON_Results results;
                           Text (generateMarkdownReport results)].
Proof.
  unfold analyze_report.
  match goal with |- context [try_catch ?b _] => set (body := b) end.
  assert (Hbody : ∀ seen r, (seen, r) ∈ body →
            written seen = []
            ∨ ∃ config github d kept,
                loadConfig rt (opt_config options) = Ok config
                ∧ initialize rt = Ok github
                ∧ Ok d ∈ analyzePR github repoString prNumber
                ∧ filterFiles (files d) config = Ok kept
                ∧ let results := {| data := prepareAIData (set_files d kept);
                                    findings := pendingAnalysis |} in
                  written seen = [JSON_Results results]
                  ∨ written seen = [JSON_Results results;
                                    Text (generateMarkdownReport results)]).
  { subst body. intros seen r Hin.
    apply elem_of_perform_then in Hin as (l1 & -> & Hin).
    apply elem_of_lift_then in Hin as [(config & Hconfig & Hin)|(e & _ & -> & _)];
      [|by left].
    apply elem_of_lift_then in Hin as [(github & Hinit & Hin)|(e & _ & -> & _)];
      [|by left].
    apply elem_of_perform_then in Hin as (l2 & -> & Hin).
    apply elem_of_awaiting_then in Hin as [(d & Hd & Hin)|(e & _ & -> & _)];
      [|by left].
    apply elem_of_lift_then in Hin as [(kept & Hkept & Hin)|(e & _ & -> & _)];
      [|by left].
    cbv zeta in Hin.
    apply elem_of_andThen in Hin
      as [(e & Hin & _)|(paths & saved & later & Hin & Hlater & ->)].
    - apply saveResults_written in Hin as [[Hw _]|[[Hw _]|Hw]].
      + left. simpl. by rewrite Hw.
      + right. exists config, github, d, kept. split_and!; try done.
        left. simpl. by rewrite Hw.
      + right. exists config, github, d, kept. split_and!; try done.
        right. simpl. by rewrite Hw.
    - apply elem_of_perform_then in Hlater as (l3 & -> & Hlater).
      apply list_elem_of_singleton in Hlater as [= -> _].
      apply saveResults_written in Hin as [[_ [=]]|[[_ [=]]|Hw]].
      right. exists config, github, d, kept. split_and!; try done.
      right. simpl. rewrite written_app, Hw. done. }
  clearbody body. intros Hin.
  apply elem_of_try_catch in Hin
    as [(v & Hin & _)|(e & seen & later & Hin & Hlater & ->)].
  - by apply (Hbody _ _ Hin).
  - unfold report_failure in Hlater.
    apply elem_of_perform_then in Hlater as (l1 & -> & Hlater).
    apply list_elem_of_singleton in Hlater as [= -> _].
    rewrite written_app, app_nil_r. by apply (Hbody _ _ Hin).
Qed.

End Report.

(** ** prepareAIData: the reviewers *)

Lemma foldl_Set_add_sublist xs acc :
  ∃ added, foldl Set_add acc xs = acc ++ added ∧ added `sublist_of` xs.
Proof.
  revert acc. induction xs as [|x xs IH]; intros acc; simpl.
  - exists []. by rewrite app_nil_r.
  - destruct (IH (Set_add acc x)) as (added & -> & Hsub).
    unfold Set_add. case_bool_decide.
    + exists added. split; [done | by constructor].
    + exists (x :: added). split; [by rewrite <- app_assoc | by constructor].
Qed.

Lemma foldl_Set_add_NoDup_id xs acc :
  NoDup (acc ++ xs) → foldl Set_add acc xs = acc ++ xs.
Proof.
  revert acc. induction xs as [|x xs IH]; intros acc Hnd; simpl.
  - by rewrite app_nil_r.
  - unfold Set_add. rewrite bool_decide_false.
    + rewrite IH; rewrite <- app_assoc; done.
    + apply NoDup_app in Hnd as (_ & Hdisj & _). intros Hx.
      apply (Hdisj x Hx). by left.
Qed.

(** What [Set.prototype.add] appends, one value after the other: values
    that the set did not hold, each placed by its first occurrence, so
    that of two appended values the earlier one occurs in the input before
    the later one occurs at all. *)
Lemma foldl_Set_add_first_occurrences xs acc :
  ∃ added,
    foldl Set_add acc xs = acc ++ added
    ∧ (∀ x, x ∈ added → x ∉ acc)
    ∧ ∀ before a between b after,
        added = before ++ a :: between ++ b :: after →
        ∃ earlier later,
          xs = earlier ++ a :: later ∧ (a ∉ earlier) ∧ (b ∉ earlier).
Proof.
  revert acc. induction xs as [|x xs IH]; intros acc; simpl.
  - exists []. split; [by rewrite app_nil_r|]. split.
    + by intros x ?%elem_of_nil.
    + intros before a between b after Heq. by destruct before.
  - destruct (IH (Set_add acc x)) as (added & -> & Hfresh & Horder).
    assert (Hin : ∀ before a between b after,
              added = before ++ a :: between ++ b :: after →
              a ∈ added ∧ b ∈ added).
    { intros before a between b after ->.
      rewrite !elem_of_app, !elem_of_cons, !elem_of_app, !elem_of_cons.
      split; [right; by left | right; right; right; by left]. }
    unfold Set_add in *. case_bool_decide as Hx.
    + exists added. split; [done|]. split; [done|].
      intros before a between b after Heq.
      destruct (Hin _ _ _ _ _ Heq) as [Ha Hb].
      destruct (Horder _ _ _ _ _ Heq) as (earlier & later & -> & Hae & Hbe).
      exists (x :: earlier), later. split; [done|].
      split; apply not_elem_of_cons; (split; [|done]).
      * intros ->. by apply (Hfresh x).
      * intros ->. by apply (Hfresh x).
    + exists (x :: added). split; [by rewrite <- app_assoc|]. split.
      * intros y [->|Hy]%elem_of_cons Hacc; [done|].
        apply (Hfresh y Hy). apply elem_of_app. by left.
      * intros before a between b after Heq.
        destruct before as [|z before]; simpl in Heq.
        -- injection Heq as <- Hrest. exists [], xs.
           split; [done|]. split; apply not_elem_of_nil.
        -- injection Heq as <- Hrest.
           destruct (Hin _ _ _ _ _ Hrest) as [Ha Hb].
           destruct (Horder _ _ _ _ _ Hrest) as (earlier & later & -> & Hae & Hbe).
           exists (x :: earlier), later. split; [done|].
           split; apply not_elem_of_cons; (split; [|done]).
           ++ intros ->. apply (Hfresh x Ha). apply elem_of_app. right. by left.
           ++ intros ->. apply (Hfresh x Hb). apply elem_of_app. right. by left.
Qed.

(** X11. The reviewers that [prepareAIData] lists are the review handles,
    each once, in the order of each reviewer's first review: of two listed
    reviewers, the one listed first has a review before any review of the
    other. Later reviews of the same reviewer are left out; when nobody
    reviewed twice the list is the handles as the provider listed them,
    and the first listed reviewer is the author of the first review. *)
Theorem prepareAIData_reviewers_order (d : PRData) :
  NoDup (reviewers (ai_metadata (prepareAIData d)))
  ∧ (∀ handle, handle ∈ reviewers (ai_metadata (prepareAIData d))
               ↔ handle ∈ (λ r, login (reviewer r)) <$> reviews d)
  ∧ (∀ before a between b after,
       reviewers (ai_metadata (prepareAIData d))
       = before ++ a :: between ++ b :: after →
       ∃ earlier later,
         (λ r, login (reviewer r)) <$> reviews d = earlier ++ a :: later
         ∧ (a ∉ earlier) ∧ (b ∉ earlier))
  ∧ reviewers (ai_metadata (prepareAIData d))
    `sublist_of` ((λ r, login (reviewer r)) <$> reviews d)
  ∧ (NoDup ((λ r, login (reviewer r)) <$> reviews d) →
     reviewers (ai_metadata (prepareAIData d))
     = (λ r, login (reviewer r)) <$> reviews d)
  ∧ (∀ first rest, reviews d = first :: rest →
       reviewers (ai_metadata (prepareAIData d)) !! 0%nat
       = Some (login (reviewer first))).
Proof.
  simpl. split_and!.
  - apply Set_of_NoDup.
  - intros handle. apply elem_of_Set_of.
  - unfold Set_of.
    destruct (foldl_Set_add_first_occurrences
                ((λ r, login (reviewer r)) <$> reviews d) [])
      as (added & -> & _ & Horder).
    apply Horder.
  - unfold Set_of.
    destruct (foldl_Set_add_sublist ((λ r, login (reviewer r)) <$> reviews d) [])
      as (added & -> & Hsub). done.
  - intros Hnd. unfold Set_of. by rewrite foldl_Set_add_NoDup_id.
  - intros first rest ->. unfold Set_of. rewrite fmap_cons. simpl.
    destruct (foldl_Set_add_sublist ((λ r, login (reviewer r)) <$> rest)
                (Set_add [] (login (reviewer first)))) as (added & -> & _).
    done.
Qed.

(** ** File names *)

(** X12. The time stamp put into the output file names has the length of
    the ISO time stamp and holds no colon and no dot; the other
    characters are kept in place. *)
Theorem timestamp_of_no_colon_or_dot (iso : string) :
  contains_char ":" (timestamp_of iso) = false
  ∧ contains_char "." (timestamp_of iso) = false
  ∧ String.length (timestamp_of iso) = String.length iso
  ∧ (contains_char ":" iso = false → contains_char "." iso = false →
     timestamp_of iso = iso).
Proof.
  unfold timestamp_of. induction iso as [|c rest (IH1 & IH2 & IH3 & IH4)].
  - done.
  - simpl. case_bool_decide as Hc.
    + split_and!; try done.
      * by rewrite IH3.
      * intros Hcolon Hdot. exfalso.
        apply orb_false_iff in Hcolon as [Hcolon _].
        apply orb_false_iff in Hdot as [Hdot _].
        apply elem_of_cons in Hc as [->|Hc]; [done|].
        apply list_elem_of_singleton in Hc as ->. done.
    + assert (c ≠ ":"%char ∧ c ≠ "."%char) as [Hcolon Hdot].
      { split; intros ->; apply Hc; [by left | by right; left]. }
      apply Ascii.eqb_neq in Hcolon, Hdot.
      split_and!.
      * simpl. by rewrite Hcolon.
      * simpl. by rewrite Hdot.
      * simpl. by rewrite IH3.
      * intros [_ H1]%orb_false_iff [_ H2]%orb_false_iff. by rewrite IH4.
Qed.

(** * The configuration commands *)

(** ** findConfig, loadConfig, saveConfig *)

Section ConfigFiles.
Import ConfigFile.
Variables (fs : FileSystem) (proc : Process).

Lemma dirname_snoc (p : path) (x : string) : dirname (p ++ [x]) = p.
Proof.
  unfold dirname. rewrite length_app. simpl.
  replace (length p + 1 - 1)%nat with (length p) by lia.
  by rewrite take_app_length.
Qed.

Lemma snoc_neq (p : path) (x : string) : p ≠ p ++ [x].
Proof.
  intros Heq. apply (f_equal length) in Heq.
  rewrite length_app in Heq. simpl in Heq. lia.
Qed.

(** The loop, with fuel for every segment of the path: the configuration
    file of the nearest directory that has one, from the path upward, or
    the one of the home directory. *)
Lemma findConfig_loop_nearest (p : path) (fuel : nat) :
  (length p ≤ fuel)%nat →
  (∃ n, (n ≤ length p)%nat
        ∧ is_Some (fs !! join (take n p) CONFIG_FILENAME)
        ∧ (∀ m, (n < m ≤ length p)%nat →
                fs !! join (take m p) CONFIG_FILENAME = None)
        ∧ findConfig_loop fs proc fuel p = join (take n p) CONFIG_FILENAME)
  ∨ ((∀ m, (m ≤ length p)%nat → fs !! join (take m p) CONFIG_FILENAME = None)
     ∧ findConfig_loop fs proc fuel p = join (homedir proc) CONFIG_FILENAME).
Proof.
  revert fuel. induction p as [|x p IH] using rev_ind; intros fuel Hfuel.
  - assert (Hstep : findConfig_loop fs proc fuel []
                    = if bool_decide (is_Some (fs !! join [] CONFIG_FILENAME))
                      then join [] CONFIG_FILENAME
                      else join (homedir proc) CONFIG_FILENAME)
      by (destruct fuel; simpl; by case_bool_decide).
    rewrite Hstep. case_bool_decide as Hhere.
    + left. exists 0%nat. split_and!; [done|done| |done].
      intros m Hm. simpl in Hm. lia.
    + right. split; [|done]. intros m Hm. simpl in Hm.
      assert (m = 0%nat) as -> by lia. simpl.
      by apply eq_None_not_Some.
  - rewrite length_app in Hfuel. simpl in Hfuel.
    destruct fuel as [|fuel]; [lia|].
    assert (Hstep : findConfig_loop fs proc (S fuel) (p ++ [x])
                    = if bool_decide (is_Some (fs !! join (p ++ [x]) CONFIG_FILENAME))
                      then join (p ++ [x]) CONFIG_FILENAME
                      else findConfig_loop fs proc fuel p).
    { simpl. case_bool_decide; [done|]. rewrite dirname_snoc.
      rewrite bool_decide_false; [done | apply snoc_neq]. }
    rewrite Hstep. clear Hstep.
    assert (Htake : ∀ m, (m ≤ length p)%nat → take m (p ++ [x]) = take m p)
      by (intros m Hm; by rewrite take_app_le).
    assert (Hfull : take (length (p ++ [x])) (p ++ [x]) = p ++ [x])
      by apply firstn_all.
    case_bool_decide as Hhere.
    + left. exists (length (p ++ [x])). rewrite Hfull.
      split_and!; [done|done| |done]. intros m Hm. lia.
    + apply eq_None_not_Some in Hhere.
      assert (Hupper : ∀ m, (length p < m ≤ length (p ++ [x]))%nat →
                fs !! join (take m (p ++ [x])) CONFIG_FILENAME = None).
      { intros m Hm. rewrite length_app in Hm. simpl in Hm.
        assert (m = length (p ++ [x])) as ->
          by (rewrite length_app; simpl; lia).
        by rewrite Hfull. }
      destruct (IH fuel ltac:(lia)) as [(n & Hn & Hsome & Hnone & ->)|[Hnone ->]].
      * left. exists n. rewrite (Htake n Hn).
        split_and!; [rewrite length_app; lia | done | | done].
        intros m Hm. destruct (decide (m ≤ length p)%nat) as [Hle|Hgt].
        -- rewrite (Htake m Hle). apply Hnone. lia.
        -- apply Hupper. lia.
      * right. split; [|done]. intros m Hm.
        destruct (decide (m ≤ length p)%nat) as [Hle|Hgt].
        -- rewrite (Htake m Hle). by apply Hnone.
        -- apply Hupper. lia.
Qed.

(** X13. [findConfig] returns the configuration file of the nearest
    directory that has one, starting with the start directory itself and
    going up to the root; when no directory on the way has one, it
    returns the path of the file in the home directory, whether that file
    exists or not. *)
Theorem findConfig_nearest (start : path) :
  (∃ n, (n ≤ length start)%nat
        ∧ is_Some (fs !! join (take n start) CONFIG_FILENAME)
        ∧ (∀ m, (n < m ≤ length start)%nat →
                fs !! join (take m start) CONFIG_FILENAME = None)
        ∧ findConfig fs proc start = join (take n start) CONFIG_FILENAME)
  ∨ ((∀ m, (m ≤ length start)%nat →
           fs !! join (take m start) CONFIG_FILENAME = None)
     ∧ findConfig fs proc start = join (homedir proc) CONFIG_FILENAME).
Proof.
  unfold findConfig.
  destruct (findConfig_loop_nearest start (length start) ltac:(lia))
    as [(n & Hn & Hsome & Hnone & Hfound)|[Hnone Hfound]].
  - left. by exists n.
  - right. by split.
Qed.

End ConfigFiles.





(** ** validate *)

Lemma validate_issues_null_only (config : json) :
  is_ok (validate_issues config) = false ↔ config = JNull.
Proof.
  unfold validate_issues.
  destruct config; simpl; try destruct (truthy _); simpl; by split.
Qed.

(** X15. [validate] returns true exactly when the configuration loads and
    no issue is found. Unless it is quiet it never returns false: it
    returns true or exits with status 1 after printing something. When
    quiet it prints nothing, and it exits, with status 1, exactly when
    the configuration does not load or is [null]; issues alone make it
    return false. *)
Theorem validate_outcomes (fs : ConfigFile.FileSystem)
    (proc : ConfigFile.Process) (options : ValidateOptions) :
  let loaded := ConfigFile.loadConfig fs proc (validate_config options) in
  let printed := (validate fs proc options).1 in
  let ended := (validate fs proc options).2 in
  (ended = Returned true ↔
   ∃ config, loaded = Ok config ∧ validate_issues config = Ok [])
  ∧ (quiet options = false →
     (ended = Returned true ∨ ended = Exited 1)
     ∧ (ended = Exited 1 → printed ≠ []))
  ∧ (quiet options = true →
     printed = []
     ∧ (ended = Exited 1 ↔
        is_ok loaded = false ∨ loaded = Ok JNull)
     ∧ (ended = Returned false ↔
        ∃ config issue issues,
          loaded = Ok config ∧ validate_issues config = Ok (issue :: issues))).
Proof.
  intros loaded printed ended. subst printed ended. unfold validate.
  fold loaded. destruct loaded as [config|e]; simpl.
  - destruct (validate_issues config) as [issues|e] eqn:Hissues; simpl.
    + assert (config ≠ JNull) as Hconfig.
      { intros ->. by apply (f_equal is_ok) in Hissues. }
      destruct (quiet options), issues as [|issue issues]; simpl.
      * split_and!.
        -- split; [by exists config | done].
        -- done.
        -- intros _. split_and!; [done| |].
           ++ split; [done|]. intros [?|[= ->]]; done.
           ++ split; [done|]. intros (c & i & more & [= <-] & ?). congruence.
      * split_and!.
        -- split; [done|]. intros (c & [= <-] & ?). congruence.
        -- done.
        -- intros _. split_and!; [done| |].
           ++ split; [done|]. intros [?|[= ->]]; done.
           ++ split; [|done]. intros _. by exists config, issue, issues.
      * split_and!.
        -- split; [by exists config | done].
        -- intros _. split; [by left | done].
        -- done.
      * split_and!.
        -- split; [done|]. intros (c & [= <-] & ?). congruence.
        -- intros _. split; [by right | done].
        -- done.
    + assert (config = JNull) as ->.
      { apply validate_issues_null_only. by rewrite Hissues. }
      split_and!.
      * split; [done|]. intros (c & [= <-] & ?). congruence.
      * intros ->. split; [by right | done].
      * intros ->. split_and!; try done.
        -- split; [by right | done].
        -- split; [done|]. intros (c & i & more & [= <-] & ?). congruence.
  - split_and!.
    + split; [done|]. by intros (c & [=] & _).
    + intros ->. split; [by right | done].
    + intros ->. split_and!; try done.
      * split; [by left | done].
      * split; [done|]. by intros (c & i & more & [=] & _).
Qed.

Lemma invalid_integer n :
  negb (Number_isInteger (inject_Z n)) || less_than_one (inject_Z n) = (n <? 1).
Proof.
  unfold Number_isInteger, less_than_one. simpl. by rewrite Z.mod_1_r.
Qed.

Ltac lookups :=
  repeat first
    [ rewrite lookup_union
    | rewrite lookup_empty
    | rewrite lookup_singleton_eq
    | rewrite lookup_singleton_ne by done ].

(** The issues of a typed configuration: a missing or empty token, and a
    limit below one. Its patterns and model name are of the right type and
    their content is not looked at. *)
Lemma validate_issues_json_of_config (config : Config) :
  validate_issues (json_of_config config)
  = Ok ((if truthy_string (github config ≫= token) then []
         else ["GitHub token is missing"])
        ++ match analysis config ≫= maxFiles with
           | Some n => if n <? 1
                       then ["analysis.maxFiles must be a positive integer"]
                       else []
           | None => []
           end).
Proof.
  destruct config as [g a]. unfold validate_issues, json_of_config. simpl.
  destruct g as [[[[|c t]|]]|], a as [[[n|] [ps|] [m|]]|]; simpl.
  all: lookups; simpl; lookups; simpl.
  all: rewrite ?invalid_integer, ?andb_false_r.
  all: try (destruct (n <? 1)); done.
Qed.

Section Validated.
Context `{E : RegExpEngine}.

(** X16. A configuration in which [validate] finds no issue has a
    non-empty token and a limit that is unset or at least one, so that
    [filterFiles] with it, when it returns, keeps at most that many
    files. *)
Theorem validated_config_limits (config : Config)
    (files kept : list FileChange) :
  validate_issues (json_of_config config) = Ok [] →
  filterFiles files config = Ok kept →
  truthy_string (github config ≫= token) = true
  ∧ ∀ n, configured_maxFiles config = Some n →
         1 ≤ n ∧ (length kept ≤ Z.to_nat n)%nat.
Proof.
  rewrite validate_issues_json_of_config. intros [= Hissues] Hkept.
  apply app_eq_nil in Hissues as [Htoken Hlimit].
  split; [by destruct (truthy_string _)|].
  intros n Hn. unfold configured_maxFiles in Hn. rewrite Hn in Hlimit.
  destruct (n <? 1) eqn:Hlt; [done|]. apply Z.ltb_ge in Hlt.
  split; [done|].
  rewrite filterFiles_cases in Hkept.
  destruct (map_throwing _ _) as [patterns|e]; [|done].
  simpl in Hkept. injection Hkept as <-.
  unfold configured_maxFiles. rewrite Hn.
  rewrite (proj2 (Z.eqb_neq n 0)) by lia.
  etrans; [apply sublist_length, exclude_sublist|].
  apply slice0_length. lia.
Qed.

(** X17. [validate] does not look into the exclusion patterns: the
    issues of a configuration are the same whatever its list of patterns
    holds. So a configuration without issues can still make [filterFiles]
    throw: with a single pattern that does not compile it throws that
    pattern's error on every file list. *)
Theorem validation_ignores_patterns (g : option GitHubConfig)
    (limit : option Z) (model : option string) (ps ps' : list string)
    (files : list FileChange) (p : string) (e : exn) :
  validate_issues
    (json_of_config
       {| github := g;
          analysis := Some {| maxFiles := limit; excludePaths := Some ps;
                              aiModel := model |} |})
  = validate_issues
      (json_of_config
         {| github := g;
            analysis := Some {| maxFiles := limit; excludePaths := Some ps';
                                aiModel := model |} |})
  ∧ (RegExp_new p = Err e →
     filterFiles files
       {| github := g;
          analysis := Some {| maxFiles := limit; excludePaths := Some [p];
                              aiModel := model |} |}
     = Err e).
Proof.
  split; [by rewrite !validate_issues_json_of_config|].
  intros Hp. rewrite filterFiles_cases. simpl. by rewrite Hp.
Qed.

End Validated.

(** ** configure *)

Lemma init_defaults_lookup (config : gmap string json) (key : string) :
  init_defaults config !! key
  = if decide (key = "github")
    then Some (JObject {[ "token" :=
                 or_default (optional_member "token" (config !! "github"))
                   (JString "") ]})
    else if decide (key = "analysis")
    then Some (JObject
                 {[ "maxFiles" :=
                      or_default (optional_member "maxFiles" (config !! "analysis"))
                        (JNumber 50);
                    "excludePaths" :=
                      or_default (optional_member "excludePaths" (config !! "analysis"))
                        (JArray []);
                    "aiModel" :=
                      or_default (optional_member "aiModel" (config !! "analysis"))
                        (JString "gpt-4") ]})
    else None.
Proof.
  unfold init_defaults. cbv zeta.
  destruct (decide (key = "github")) as [->|Hg].
  - by rewrite lookup_insert_eq.
  - rewrite lookup_insert_ne by done.
    destruct (decide (key = "analysis")) as [->|Ha].
    + by rewrite lookup_singleton_eq.
    + by rewrite lookup_singleton_ne.
Qed.

Lemma with_defaults_lookup (config : gmap string json) (key : string) :
  with_defaults config !! key
  = match config !! key with
    | Some v => Some v
    | None => init_defaults config !! key
    end.
Proof.
  unfold with_defaults. rewrite lookup_union.
  destruct (config !! key), (init_defaults config !! key); done.
Qed.

(** X18. With [--init] and no token option, every top-level key that the
    loaded configuration has is saved with its value as it is: a [github]
    or [analysis] section that is present is not completed with defaults
    for the keys it lacks. A missing [github] section becomes an empty
    token, a missing [analysis] section the defaults 50, no pattern and
    gpt-4; and a second run changes nothing more. *)
Theorem configure_init_defaults (config : gmap string json) (key : string) :
  let options := {| githubToken := None; init := true |} in
  (∀ v, config !! key = Some v → updated options config !! key = Some v)
  ∧ (config !! "github" = None →
     updated options config !! "github"
     = Some (JObject {[ "token" := JString "" ]}))
  ∧ (config !! "analysis" = None →
     updated options config !! "analysis"
     = Some (JObject {[ "maxFiles" := JNumber 50;
                        "excludePaths" := JArray [];
                        "aiModel" := JString "gpt-4" ]}))
  ∧ (key ≠ "github" → key ≠ "analysis" →
     updated options config !! key = config !! key)
  ∧ updated options (updated options config) = updated options config.
Proof.
  intros options. unfold updated. simpl. split_and!.
  - intros v Hv. by rewrite with_defaults_lookup, Hv.
  - intros Hg. by rewrite with_defaults_lookup, Hg, init_defaults_lookup, Hg.
  - intros Ha. by rewrite with_defaults_lookup, Ha, init_defaults_lookup, Ha.
  - intros Hg Ha. rewrite with_defaults_lookup, init_defaults_lookup.
    rewrite !decide_False by done. by destruct (config !! key).
  - apply map_eq. intros k.
    rewrite (with_defaults_lookup (with_defaults config)).
    destruct (with_defaults config !! k) as [v|] eqn:Hk; [done|].
    rewrite with_defaults_lookup in Hk.
    destruct (config !! k) eqn:Hc; [done|].
    rewrite init_defaults_lookup in Hk. rewrite init_defaults_lookup.
    destruct (decide (k = "github")); [done|].
    destruct (decide (k = "analysis")); done.
Qed.

(** X19. With a non-empty [--github-token], the saved [github] section
    holds that token: beside the other keys of the section when the
    loaded one is an object, alone when it is missing or falsy. When the
    loaded [github] is a truthy value that is no object (a string, a
    number, [true], an array) it is saved as it is and the token is
    dropped without an error. Other top-level keys are kept unless
    [--init] adds a missing [analysis]. *)
Theorem configure_token (tokenValue : string) (initialise : bool)
    (config : gmap string json) :
  tokenValue ≠ "" →
  let options := {| githubToken := Some tokenValue; init := initialise |} in
  (∀ fields, config !! "github" = Some (JObject fields) →
     updated options config !! "github"
     = Some (JObject (<["token" := JString tokenValue]> fields)))
  ∧ (truthy (config !! "github") = false →
     updated options config !! "github"
     = Some (JObject {[ "token" := JString tokenValue ]}))
  ∧ (∀ v, config !! "github" = Some v → truthy (Some v) = true →
          (∀ fields, v ≠ JObject fields) →
          updated options config !! "github" = Some v)
  ∧ (∀ key v, key ≠ "github" → config !! key = Some v →
              updated options config !! key = Some v).
Proof.
  intros Htoken options.
  assert (Htruthy : truthy_string (Some tokenValue) = true)
    by (by destruct tokenValue).
  assert (Hkeep : ∀ m : gmap string json, ∀ key v,
            m !! key = Some v →
            (if initialise then with_defaults m else m) !! key = Some v).
  { intros m key v Hv. destruct initialise; [|done].
    by rewrite with_defaults_lookup, Hv. }
  subst options. unfold updated. cbn [githubToken init]. rewrite Htruthy.
  cbn [from_option id]. unfold set_token, or_default.
  split_and!.
  - intros fields Hg. rewrite Hg. simpl. apply Hkeep. by rewrite lookup_insert_eq.
  - intros Hg. rewrite Hg. apply Hkeep. rewrite lookup_insert_eq.
    by rewrite insert_empty.
  - intros v Hg Hv Hobject. rewrite Hg, Hv. simpl.
    destruct v; try (apply Hkeep; by rewrite lookup_insert_eq).
    by destruct (Hobject fields).
  - intros key v Hkey Hv. apply Hkeep.
    destruct (if truthy (config !! "github") then _ else _);
      by rewrite lookup_insert_ne.
Qed.




(** ** The totals after filtering *)

Lemma sublist_same_length {A} (l1 l2 : list A) :
  l1 `sublist_of` l2 → length l1 = length l2 → l1 = l2.
Proof.
  induction 1 as [|x l1 l2 _ IH|x l1 l2 Hsub _]; simpl; intros Hlen.
  - done.
  - f_equal. apply IH. lia.
  - apply sublist_length in Hsub. lia.
Qed.

Section Totals.
Context `{E : RegExpEngine}.



(** X21. When the files of an aggregated record are replaced by what
    [filterFiles] keeps, the metadata that [prepareAIData] prepares still
    counts the provider's changed files and sums their additions and
    deletions, while its list of changed files and the changes beside it
    hold the kept files only; the count equals the number of listed files
    exactly when no file was left out. *)
Theorem filtered_record_totals (octokit : Octokit)
    (repoString prNumber : string) (d : PRData) (config : Config)
    (kept : list FileChange) :
  Ok d ∈ analyzePR octokit repoString prNumber →
  filterFiles (files d) config = Ok kept →
  let prepared := prepareAIData (set_files d kept) in
  totalFiles (ai_metadata prepared) = Z.of_nat (length (files d))
  ∧ totalAdditions (ai_metadata prepared)
    = total ((λ f : FileChange, additions f) <$> files d)
  ∧ totalDeletions (ai_metadata prepared)
    = total ((λ f : FileChange, deletions f) <$> files d)
  ∧ changedFiles (ai_metadata prepared) = (λ f : FileChange, filename f) <$> kept
  ∧ change_filename <$> changes prepared = changedFiles (ai_metadata prepared)
  ∧ (length (changedFiles (ai_metadata prepared)) ≤ length (files d))%nat
  ∧ (totalFiles (ai_metadata prepared)
     = Z.of_nat (length (changedFiles (ai_metadata prepared)))
     ↔ kept = files d).
Proof.
  intros (pr & fs & cs & rv & fcs & _ & _ & _ & _ & Hfcs & ->)%analyzePR_fulfils Hkept.
  apply fetched_contents_files in Hfcs as <-. simpl in *.
  assert (Hsub : kept `sublist_of` fcs).
  { rewrite filterFiles_cases in Hkept.
    destruct (map_throwing _ _) as [patterns|e]; [|done].
    simpl in Hkept. injection Hkept as <-.
    etrans; [apply exclude_sublist|].
    destruct (configured_maxFiles config) as [n|]; [|done].
    destruct (n =? 0); [done | apply slice0_sublist]. }
  split_and!.
  - by rewrite length_fmap.
  - by rewrite sum_additions_total, <- list_fmap_compose.
  - by rewrite sum_deletions_total, <- list_fmap_compose.
  - done.
  - by rewrite <- list_fmap_compose.
  - rewrite length_fmap. by apply sublist_length.
  - rewrite !length_fmap. split.
    + intros Hlen. apply Nat2Z.inj in Hlen.
      by apply sublist_same_length.
    + by intros ->.
Qed.

End Totals.

(** * Instances on the samples *)

Lemma analyze_handlers_catch_everything_witness :
  ∃ before,
    Forall (λ e, ordinary e = true) before
    ∧ ([ConsoleLog "Starting pull request analysis...";
        ConsoleLog "Fetching PR data...";
        ConsoleError "Error analyzing pull request:" (RequestError 401);
        ProcessExit 1] = before
       ∨ ∃ e, [ConsoleLog "Starting pull request analysis...";
               ConsoleLog "Fetching PR data...";
               ConsoleError "Error analyzing pull request:" (RequestError 401);
               ProcessExit 1]
              = before ++ [ConsoleError "Error analyzing pull request:" e;
                           ProcessExit 1]).
Proof.
  eapply (analyze_handlers_catch_everything (E := Fragment.engine)
            (Sample.runtime Sample.unauthorized) "github" "octo/cat" "7"
            Sample.options (FunctionDeclaration 283 "analyze" analyze_prompt)
            _ (Ok ())).
  - right. left.
  - vm_compute. left.
Defined.

Lemma analyze_without_token_witness :
  analyze_prompt Cases.runtime_without_token "github" "octo/cat" "7" Sample.options
  = [([ConsoleLog "Starting pull request analysis...";
       ConsoleError "Error analyzing pull request:"
         (Error "GitHub token not configured. Run: pullmaster configure --github-token <token>");
       ProcessExit 1], Ok ())].
Proof.
  apply (analyze_without_token (E := Fragment.engine)
           Cases.runtime_without_token "github" "octo/cat" "7" Sample.options
           {| github := Some {| token := None |}; analysis := None |}
           {| github := Some {| token := None |}; analysis := None |}
           (FunctionDeclaration 283 "analyze" analyze_prompt));
    [reflexivity | reflexivity | reflexivity | right; left].
Defined.

Lemma analyze_report_written_witness :
  ∃ trace,
    (trace, Ok ())
    ∈ analyze_report (E := Fragment.engine) (Sample.runtime Sample.octokit)
        "github" "octo/cat" "7" Sample.options
    ∧ length (written trace) = 2%nat.
Proof.
  eexists. split; [vm_compute; left|].
  match goal with |- length (written ?t) = _ =>
    destruct (analyze_report_written (E := Fragment.engine)
                (Sample.runtime Sample.octokit) "github" "octo/cat" "7"
                Sample.options t (Ok ()) ltac:(vm_compute; left))
      as [Hnone|(config & github & d & kept & _ & _ & _ & _ & [Hone|Htwo])]
  end.
  - discriminate Hnone.
  - discriminate Hone.
  - reflexivity.
Defined.

Lemma validated_config_limits_witness :
  (length [Sample.a_file] ≤ Z.to_nat 2)%nat.
Proof.
  eapply (validated_config_limits (E := Fragment.engine)
            (Sample.config (Some 2) (Some [".*\.log$"])) Sample.fileList
            [Sample.a_file]); [vm_compute; reflexivity | reflexivity | reflexivity].
Defined.

Lemma configure_token_witness :
  updated {| githubToken := Some "t0k"; init := true |} ∅ !! "github"
  = Some (JObject {[ "token" := JString "t0k" ]}).
Proof.
  destruct (configure_token "t0k" true ∅ ltac:(done)) as (_ & Hfresh & _).
  apply Hfresh. reflexivity.
Defined.



Lemma filtered_record_totals_witness :
  totalFiles (ai_metadata (prepareAIData (set_files Sample.prData [Sample.a_file])))
  = Z.of_nat (length (files Sample.prData)).
Proof.
  eapply (filtered_record_totals (E := Fragment.engine) Sample.octokit
            "octo/cat" "7" Sample.prData
            (Sample.config (Some 2) (Some [".*\.log$"])) [Sample.a_file]).
  - rewrite analyzePR_sample. left.
  - reflexivity.
Defined.
